(** * Zephyr push-to-talk pipeline: a shallow embedding of the session core

    The development follows the Python sources module by module:
    - [Hotkey]  : [zephyr/hotkey_listener.py]  (class [HotkeyListener], pynput)
    - [Evdev]   : [zephyr/evdev_hotkey_listener.py] (class [EvdevHotkeyListener])
    - [Audio]   : [zephyr/audio_capture.py]    (class [AudioCapture])
    - [Speech]  : [zephyr/speech_recognition.py] (class [SpeechRecognizer])
    - [Daemon]  : [zephyr/daemon.py]           (class [ZephyrDaemon])

    Conventions of the embedding.
    - Object attributes become record fields with the attribute's name.
    - A method becomes a function from the object's state (and the outcomes
      of the external calls it makes) to the new state, the value returned or
      the exception raised, and the list of observable calls it made.
    - Python floats (clock readings, durations, confidences) are modelled as
      exact rationals [Q]; the clock value returned by [time.time()] is an
      argument of the handler that reads it.  Where the result of a float
      operation is truncated to an integer ([AudioCapture.__init__]), the
      operation is rounded to the nearest double first ([binary64]).
    - Text is modelled by ASCII [string]s. *)

From Stdlib Require Import ZArith QArith Qround List String Ascii Bool Arith Lia ListSet.
Import ListNotations.

Open Scope string_scope.
Open Scope list_scope.

(** ** Shared helpers *)

(** Strict comparison of two clock/duration values ([x < y] on floats). *)
Definition Qltb (x y : Q) : bool := negb (Qle_bool y x).

(** Python truthiness of a float: [0.0] is falsy. *)
Definition Qtruthy (x : Q) : bool := negb (Qeq_bool x 0).

(** ASCII classes used by [str.strip], [str.split], [str.lower] and
    [str.isupper]. *)
Definition is_space (c : ascii) : bool :=
  let n := nat_of_ascii c in
  (((9 <=? n) && (n <=? 13)) || ((28 <=? n) && (n <=? 32)))%nat.

Definition is_upper (c : ascii) : bool :=
  let n := nat_of_ascii c in ((65 <=? n) && (n <=? 90))%nat.

Definition lower_ascii (c : ascii) : ascii :=
  if is_upper c then ascii_of_nat (nat_of_ascii c + 32) else c.

Fixpoint lower (s : string) : string :=
  match s with
  | EmptyString => EmptyString
  | String c r => String (lower_ascii c) (lower r)
  end.

Fixpoint lstrip (s : string) : string :=
  match s with
  | String c r => if is_space c then lstrip r else s
  | EmptyString => EmptyString
  end.

Fixpoint rev_string (s acc : string) : string :=
  match s with
  | EmptyString => acc
  | String c r => rev_string r (String c acc)
  end.

Definition rstrip (s : string) : string :=
  rev_string (lstrip (rev_string s "")) "".

Definition strip (s : string) : string := rstrip (lstrip s).

(** [s.split(sep)] for a one-character separator: always at least one part. *)
Fixpoint split_on (sep : ascii) (s : string) : list string :=
  match s with
  | EmptyString => [EmptyString]
  | String c r =>
      if Ascii.eqb c sep then EmptyString :: split_on sep r
      else match split_on sep r with
           | p :: ps => String c p :: ps
           | [] => [String c EmptyString]
           end
  end.

Fixpoint mem_char (c : ascii) (s : string) : bool :=
  match s with
  | EmptyString => false
  | String d r => Ascii.eqb c d || mem_char c r
  end.

(** Calls a hotkey listener makes on its owner: [on_press_callback()] and
    [on_release_callback()]. *)
Inductive fired : Set :=
  | OnPress
  | OnRelease.

(** ** The pynput hotkey listener, [hotkey_listener.py] *)
Module Hotkey.

(** Members of [pynput.keyboard.Key] that the module names. *)
Inductive Key : Set :=
  | space | ctrl | ctrl_l | ctrl_r | alt | alt_l | alt_r
  | shift | shift_l | shift_r | tab | enter | esc
  | f1 | f2 | f3 | f4 | f5 | f6 | f7 | f8 | f9 | f10 | f11 | f12.

Definition Key_eq_dec (a b : Key) : {a = b} + {a <> b}.
Proof. decide equality. Defined.

Definition Key_eqb (a b : Key) : bool := if Key_eq_dec a b then true else false.

(** What pynput hands to the callbacks: a [KeyCode] (with an optional
    [char]) or a member of the [Key] enumeration. *)
Inductive raw_key : Set :=
  | KeyCode (char : option string) (vk : Z)
  | KeyEnum (k : Key).

(** A value of [KEY_MAPPING], and so the type of [_target_key] and of the
    members of [_required_modifiers]: a character or a [Key] member. *)
Inductive mapped : Set :=
  | Chr (c : string)
  | Special (k : Key).

Definition mapped_eqb (a b : mapped) : bool :=
  match a, b with
  | Chr x, Chr y => String.eqb x y
  | Special x, Special y => Key_eqb x y
  | _, _ => false
  end.

Definition KEY_MAPPING : list (string * mapped) :=
  [ ("backslash", Chr "\"); ("space", Special space);
    ("ctrl", Special ctrl); ("ctrl_l", Special ctrl_l); ("ctrl_r", Special ctrl_r);
    ("alt", Special alt); ("alt_l", Special alt_l); ("alt_r", Special alt_r);
    ("shift", Special shift); ("tab", Special tab); ("enter", Special enter);
    ("esc", Special esc);
    ("f1", Special f1); ("f2", Special f2); ("f3", Special f3); ("f4", Special f4);
    ("f5", Special f5); ("f6", Special f6); ("f7", Special f7); ("f8", Special f8);
    ("f9", Special f9); ("f10", Special f10); ("f11", Special f11); ("f12", Special f12) ].

Fixpoint lookup (name : string) (m : list (string * mapped)) : option mapped :=
  match m with
  | [] => None
  | (k, v) :: r => if String.eqb name k then Some v else lookup name r
  end.

Inductive HotkeyError : Set :=
  | HotkeyRegistrationError (msg : string).

(** [parts[:-1]] and [parts[-1]] of a non-empty list. *)
Fixpoint init_last (d : string) (l : list string) : list string * string :=
  match l with
  | [] => ([], d)
  | [x] => ([], x)
  | x :: r => let '(i, z) := init_last d r in (x :: i, z)
  end.

Definition mapped_eq_dec (a b : mapped) : {a = b} + {a <> b}.
Proof. decide equality; [apply string_dec | apply Key_eq_dec]. Defined.

Fixpoint parse_modifiers (names : list string) (acc : set mapped)
  : HotkeyError + set mapped :=
  match names with
  | [] => inr acc
  | n :: r =>
      match lookup n KEY_MAPPING with
      | Some mod_key => parse_modifiers r (set_add mapped_eq_dec mod_key acc)
      | None => inl (HotkeyRegistrationError ("Invalid modifier: '" ++ n ++ "'")%string)
      end
  end.

(** [_parse_hotkey]: the target key and the set of required modifiers. *)
Definition _parse_hotkey (hotkey : string)
  : HotkeyError + (mapped * set mapped) :=
  if mem_char "+" hotkey then
    let parts := map (fun p => lower (strip p)) (split_on "+" hotkey) in
    if (List.length parts <? 2)%nat then
      inl (HotkeyRegistrationError ("Invalid hotkey combination: '" ++ hotkey ++ "'")%string)
    else
      let '(modifier_names, target_key_name) := init_last "" parts in
      let target :=
        match lookup target_key_name KEY_MAPPING with
        | Some k => inr k
        | None =>
            if (String.length target_key_name =? 1)%nat
            then inr (Chr target_key_name)
            else inl (HotkeyRegistrationError
                        ("Invalid target key: '" ++ target_key_name ++ "'")%string)
        end in
      match target with
      | inl e => inl e
      | inr target_key =>
          match parse_modifiers modifier_names (empty_set mapped) with
          | inl e => inl e
          | inr required_modifiers => inr (target_key, required_modifiers)
          end
      end
  else
    match lookup (lower hotkey) KEY_MAPPING with
    | Some key => inr (key, empty_set mapped)
    | None =>
        if (String.length hotkey =? 1)%nat then inr (Chr hotkey, empty_set mapped)
        else inl (HotkeyRegistrationError ("Invalid hotkey: '" ++ hotkey ++ "'")%string)
    end.

(** The attributes of a [HotkeyListener] that the key callbacks read or
    write.  A callback attribute is [true] when a callable is registered
    (an exception it raises is caught and logged by the listener). *)
Record HotkeyListener : Type := mkListener {
  on_press_callback : bool;
  on_release_callback : bool;
  min_press_duration : Q;
  _key_pressed : bool;
  _press_start_time : option Q;
  _pressed_modifiers : set raw_key;
  _target_key : mapped;
  _required_modifiers : set mapped
}.

Definition raw_key_eq_dec (a b : raw_key) : {a = b} + {a <> b}.
Proof.
  decide equality; [apply Z.eq_dec | | apply Key_eq_dec].
  decide equality. apply string_dec.
Defined.

(** [__init__]: [min_press_duration] is given in milliseconds. *)
Definition init (hotkey : string) (press_cb release_cb : bool) (min_ms : Z)
  : HotkeyError + HotkeyListener :=
  match _parse_hotkey hotkey with
  | inl e => inl e
  | inr (target, required) =>
      inr {| on_press_callback := press_cb;
             on_release_callback := release_cb;
             min_press_duration := (inject_Z min_ms / 1000)%Q;
             _key_pressed := false;
             _press_start_time := None;
             _pressed_modifiers := empty_set raw_key;
             _target_key := target;
             _required_modifiers := required |}
  end.

Definition _is_target_key (s : HotkeyListener) (key : raw_key) : bool :=
  match key with
  | KeyCode (Some c) _ => mapped_eqb (Chr c) (_target_key s)
  | KeyCode None _ => false
  | KeyEnum k => mapped_eqb (Special k) (_target_key s)
  end.

Definition modifier_keys : list Key :=
  [ctrl; ctrl_l; ctrl_r; alt; alt_l; alt_r; shift; shift_l; shift_r].

Definition _is_modifier_key (key : raw_key) : bool :=
  match key with
  | KeyEnum k => existsb (Key_eqb k) modifier_keys
  | KeyCode _ _ => false
  end.

Definition pressed (s : HotkeyListener) (k : Key) : bool :=
  set_mem raw_key_eq_dec (KeyEnum k) (_pressed_modifiers s).

Definition modifier_satisfied (s : HotkeyListener) (required_mod : mapped) : bool :=
  match required_mod with
  | Chr _ => false
  | Special k =>
      pressed s k ||
      match k with
      | ctrl => pressed s ctrl_l || pressed s ctrl_r
      | alt => pressed s alt_l || pressed s alt_r
      | shift => pressed s shift_l || pressed s shift_r
      | _ => false
      end
  end.

Definition _are_modifiers_pressed (s : HotkeyListener) : bool :=
  forallb (modifier_satisfied s) (_required_modifiers s).

Definition with_modifiers (s : HotkeyListener) (m : set raw_key) : HotkeyListener :=
  {| on_press_callback := on_press_callback s;
     on_release_callback := on_release_callback s;
     min_press_duration := min_press_duration s;
     _key_pressed := _key_pressed s;
     _press_start_time := _press_start_time s;
     _pressed_modifiers := m;
     _target_key := _target_key s;
     _required_modifiers := _required_modifiers s |}.

Definition with_press (s : HotkeyListener) (p : bool) (t : option Q) : HotkeyListener :=
  {| on_press_callback := on_press_callback s;
     on_release_callback := on_release_callback s;
     min_press_duration := min_press_duration s;
     _key_pressed := p;
     _press_start_time := t;
     _pressed_modifiers := _pressed_modifiers s;
     _target_key := _target_key s;
     _required_modifiers := _required_modifiers s |}.

(** [start]: the part that resets the press state (the pynput thread it
    creates is what later delivers the raw events). *)
Definition start (s : HotkeyListener) : HotkeyListener :=
  with_modifiers (with_press s false None) (empty_set raw_key).

(** [_on_key_press key]; [now] is what [time.time()] returns if it is read.
    Result: new state, the value returned to pynput ([false] = suppress the
    key, [true] = let it through) and the callbacks invoked. *)
Definition _on_key_press (s : HotkeyListener) (key : raw_key) (now : Q)
  : HotkeyListener * bool * list fired :=
  if _is_modifier_key key then
    (with_modifiers s (set_add raw_key_eq_dec key (_pressed_modifiers s)), true, [])
  else if negb (_is_target_key s key) then (s, true, [])
  else if negb (_are_modifiers_pressed s) then (s, true, [])
  else if _key_pressed s then (s, false, [])
  else
    (with_press s true (Some now), false,
     if on_press_callback s then [OnPress] else []).

Definition _trigger_callbacks (s : HotkeyListener) : list fired :=
  if on_release_callback s then [OnRelease] else [].

(** [time.time() - self._press_start_time if self._press_start_time else 0] *)
Definition press_duration (s : HotkeyListener) (now : Q) : Q :=
  match _press_start_time s with
  | Some t => if Qtruthy t then (now - t)%Q else 0%Q
  | None => 0%Q
  end.

(** [_on_key_release key] *)
Definition _on_key_release (s : HotkeyListener) (key : raw_key) (now : Q)
  : HotkeyListener * bool * list fired :=
  if _is_modifier_key key then
    (with_modifiers s (set_remove raw_key_eq_dec key (_pressed_modifiers s)), true, [])
  else if negb (_is_target_key s key) then (s, true, [])
  else if negb (_key_pressed s) then (s, true, [])
  else
    let d := press_duration s now in
    let s' := with_press s false None in
    if Qltb d (min_press_duration s) then (s', false, [])
    else (s', false, _trigger_callbacks s').

(** The raw events pynput delivers, each with the clock reading at the time
    it is handled. *)
Inductive raw_event : Set :=
  | Down (key : raw_key) (now : Q)
  | Up (key : raw_key) (now : Q).

Definition handle (s : HotkeyListener) (ev : raw_event)
  : HotkeyListener * bool * list fired :=
  match ev with
  | Down key now => _on_key_press s key now
  | Up key now => _on_key_release s key now
  end.

(** The listener thread: events are handled one after the other; the log
    keeps, per event, the value returned and the callbacks invoked. *)
Fixpoint run (s : HotkeyListener) (evs : list raw_event)
  : HotkeyListener * list (bool * list fired) :=
  match evs with
  | [] => (s, [])
  | ev :: r =>
      let '(s1, ret, calls) := handle s ev in
      let '(s2, log) := run s1 r in
      (s2, (ret, calls) :: log)
  end.

Definition callbacks_of (log : list (bool * list fired)) : list fired :=
  flat_map snd log.

End Hotkey.

(** ** The evdev hotkey listener, [evdev_hotkey_listener.py] *)
Module Evdev.

Record EvdevHotkeyListener : Type := mkListener {
  on_press_callback : bool;
  on_release_callback : bool;
  min_press_duration : Q;
  _pressed_keys : set Z;
  _hotkey_pressed : bool;
  _press_start_time : option Q;
  _target_key : Z;
  _required_modifiers : set Z
}.

Definition with_state (s : EvdevHotkeyListener) (keys : set Z) (p : bool)
  (t : option Q) : EvdevHotkeyListener :=
  {| on_press_callback := on_press_callback s;
     on_release_callback := on_release_callback s;
     min_press_duration := min_press_duration s;
     _pressed_keys := keys;
     _hotkey_pressed := p;
     _press_start_time := t;
     _target_key := _target_key s;
     _required_modifiers := _required_modifiers s |}.

Definition issubset (a b : set Z) : bool :=
  forallb (fun x => set_mem Z.eq_dec x b) a.

(** [_handle_key_event event] with [event.code = key_code] and
    [event.value = key_state] (0 release, 1 press, 2 hold). *)
Definition _handle_key_event (s : EvdevHotkeyListener) (key_code key_state : Z)
  (now : Q) : EvdevHotkeyListener * list fired :=
  if (key_state =? 1)%Z then
    let keys := set_add Z.eq_dec key_code (_pressed_keys s) in
    let s1 := with_state s keys (_hotkey_pressed s) (_press_start_time s) in
    if (key_code =? _target_key s)%Z then
      if issubset (_required_modifiers s) keys then
        if negb (_hotkey_pressed s) then
          (with_state s keys true (Some now),
           if on_press_callback s then [OnPress] else [])
        else (s1, [])
      else (s1, [])
    else (s1, [])
  else if (key_state =? 0)%Z then
    let keys :=
      if set_mem Z.eq_dec key_code (_pressed_keys s)
      then set_remove Z.eq_dec key_code (_pressed_keys s)
      else _pressed_keys s in
    if (key_code =? _target_key s)%Z && _hotkey_pressed s then
      (with_state s keys false None,
       if on_release_callback s then [OnRelease] else [])
    else (with_state s keys (_hotkey_pressed s) (_press_start_time s), [])
  else (s, []).

End Evdev.

(** ** Exceptions, observable calls and the effect monad

    The classes of exception the modules raise or distinguish; [msg] is
    [str(e)]. *)
Inductive exn_class : Set :=
  | RuntimeError | OSError | ZeroDivisionError | ValueError
  | AudioDeviceError | MicrophoneNotFoundError | PermissionDeniedError
  | DeviceBusyError
  | TranscriptionError | ModelLoadError
  | OtherException.

Record exn : Set := Raise { cls : exn_class; msg : string }.

Definition bytes : Set := list Init.Byte.byte.

(** Calls that leave the modelled objects: to PortAudio, to the Whisper
    model, to the overlay and the input simulator, and to the callbacks
    registered by the owner of an object. *)
Inductive call : Type :=
  (* PyAudio / threads *)
  | PyAudio_new | pa_enumerate | pa_open | stream_is_active | stream_stop_stream
  | stream_close | pa_terminate | stream_read | thread_start | thread_join
  | nr_reduce_noise
  | chunk_callback (data : bytes)
  (* faster-whisper / timers *)
  | WhisperModel_new | model_transcribe | timer_start | timer_cancel
  | streaming_callback (text : string) (is_final : bool)
  (* methods of the audio capture and of the recognizer, as called by the daemon *)
  | ac_start_recording | ac_stop_recording | ac_release_device
  | sr_start_streaming_transcription | sr_finalize_transcription
  (* overlay *)
  | ui_show_recording | ui_hide | ui_update_transcription (text : string) (is_final : bool)
  | ui_show_completion | ui_show_error (message : string)
  (* input simulator *)
  | in_start_streaming_input | in_finalize_input.

(** A computation over an object of type [S]: it always returns the object
    (mutations made before an exception stay), the calls made, and either
    the exception raised or the value returned. *)
Definition M (S A : Type) : Type := S -> S * list call * (exn + A).

Section Monad.
Context {S : Type}.

Definition ret {A} (a : A) : M S A := fun s => (s, [], inr a).

Definition raise {A} (e : exn) : M S A := fun s => (s, [], inl e).

Definition bind {A B} (m : M S A) (k : A -> M S B) : M S B := fun s =>
  let '(s1, t1, r) := m s in
  match r with
  | inl e => (s1, t1, inl e)
  | inr a => let '(s2, t2, r2) := k a s1 in (s2, t1 ++ t2, r2)
  end.

Definition get : M S S := fun s => (s, [], inr s).

Definition modify (f : S -> S) : M S unit := fun s => (f s, [], inr tt).

Definition emit (c : call) : M S unit := fun s => (s, [c], inr tt).

(** An external call whose outcome the environment decides. *)
Definition extern {A} (c : call) (outcome : exn + A) : M S A :=
  fun s => (s, [c], outcome).

(** [try: m  except Exception as e: h e] *)
Definition try_except {A} (m : M S A) (h : exn -> M S A) : M S A := fun s =>
  let '(s1, t1, r) := m s in
  match r with
  | inl e => let '(s2, t2, r2) := h e s1 in (s2, t1 ++ t2, r2)
  | inr a => (s1, t1, inr a)
  end.

(** [try: m  finally: f] *)
Definition try_finally {A} (m : M S A) (f : M S unit) : M S A := fun s =>
  let '(s1, t1, r) := m s in
  let '(s2, t2, r2) := f s1 in
  match r2 with
  | inl e => (s2, t1 ++ t2, inl e)
  | inr _ => (s2, t1 ++ t2, r)
  end.

Definition when (b : bool) (m : M S unit) : M S unit :=
  if b then m else ret tt.
End Monad.

Declare Scope monad_scope.
Delimit Scope monad_scope with monad.
Notation "x <- m ;; k" := (bind m (fun x => k))
  (at level 61, m at next level, right associativity) : monad_scope.
Notation "m ;; k" := (bind m (fun _ => k))
  (at level 61, right associativity) : monad_scope.

Definition state_of {S A} (r : S * list call * (exn + A)) : S := fst (fst r).
Definition calls_of {S A} (r : S * list call * (exn + A)) : list call := snd (fst r).
Definition outcome_of {S A} (r : S * list call * (exn + A)) : exn + A := snd r.

(** Substring test, ["needle" in hay]. *)
Fixpoint contains (needle hay : string) : bool :=
  String.prefix needle hay ||
  match hay with
  | EmptyString => false
  | String _ r => contains needle r
  end.

(** [collections.deque(maxlen=...)]: [append] adds on the right and, when
    the length then exceeds [maxlen], removes one element on the left. *)
Record deque (A : Type) : Type := mkDeque { items : list A; maxlen : option nat }.
Arguments mkDeque {A} _ _.
Arguments items {A} _.
Arguments maxlen {A} _.

Definition deque_append {A} (x : A) (d : deque A) : deque A :=
  let l := items d ++ [x] in
  match maxlen d with
  | None => mkDeque l None
  | Some n => mkDeque (if (n <? List.length l)%nat then tl l else l) (Some n)
  end.

Definition deque_clear {A} (d : deque A) : deque A := mkDeque [] (maxlen d).

(** [int(x)] of a float: truncation toward zero. *)
Definition int_of_Q (q : Q) : Z := Z.quot (Qnum q) (Zpos (Qden q)).

(** ** Double precision

    A Python float is an IEEE binary64 number, modelled by the rational it
    denotes.  The result of one float operation is the exact result rounded
    to the nearest double, ties to even: [binary64] of the exact result.
    Overflow to infinity and subnormal numbers are left out: [binary64] is
    the rounding of the floating-point unit for magnitudes from 2^-1022 up
    to the largest double.  A Python [int] that meets a float in an
    operation is converted first, which rounds it the same way. *)

(** The nearest integer, ties to even. *)
Definition round_half_even (q : Q) : Z :=
  let f := Qfloor q in
  match Qcompare (q - inject_Z f) (1 # 2) with
  | Lt => f
  | Gt => (f + 1)%Z
  | Eq => if Z.even f then f else (f + 1)%Z
  end.

(** [2^k] for an integer [k]. *)
Definition pow2 (k : Z) : Q :=
  match k with
  | Z0 => 1
  | Zpos p => inject_Z (2 ^ Zpos p)
  | Zneg p => 1 # (2 ^ p)
  end.

(** For a positive [a], the exponent [e] with [2^e <= a < 2^(e+1)]. *)
Definition binade (a : Q) : Z :=
  let k := (Z.log2 (Qnum a) - Z.log2 (Zpos (Qden a)))%Z in
  if Qle_bool (pow2 k) a then k else (k - 1)%Z.

(** The double nearest to a positive [a]: a 53-bit significand times a power
    of two. *)
Definition nearest (a : Q) : Q :=
  let e := (binade a - 52)%Z in
  Qred (inject_Z (round_half_even (a / pow2 e)) * pow2 e).

Definition binary64 (q : Q) : Q :=
  match Qnum q with
  | Z0 => 0
  | Zpos _ => nearest q
  | Zneg _ => - nearest (- q)
  end.

(** ** Audio capture, [audio_capture.py] *)
Module Audio.
Local Open Scope monad_scope.

(** Handles of the PortAudio binding. *)
Inductive PyAudio : Set := PyAudioHandle.
Inductive Stream : Set := StreamHandle.
Inductive Thread : Set := ThreadHandle.

Record AudioCapture : Type := mkAudioCapture {
  sample_rate : Z;
  channels : Z;
  chunk_duration : Q;
  max_recording_duration : Z;
  chunk_size : Z;
  _pyaudio : option PyAudio;
  _stream : option Stream;
  _is_recording : bool;
  _recording_thread : option Thread;
  _stop_event : bool;
  _audio_buffer : deque bytes;
  _current_audio_level : Q;
  _chunk_callback : bool;
  _apply_noise_reduction : bool
}.

(** [__init__] (PyAudio and NumPy importable), for a float
    [chunk_duration].  Python raises on a zero [chunk_duration] (division)
    and on a negative [maxlen].  [int(sample_rate * chunk_duration)] and
    [int(max_recording_duration / chunk_duration)] truncate the rounded
    results of the float product and quotient. *)
Definition init (sample_rate channels : Z) (chunk_duration : Q)
  (max_recording_duration : Z) : exn + AudioCapture :=
  let chunk_size :=
    int_of_Q (binary64 (binary64 (inject_Z sample_rate) * chunk_duration)) in
  if Qeq_bool chunk_duration 0 then inl (Raise ZeroDivisionError "float division by zero")
  else
    let max_buffer_size :=
      (int_of_Q (binary64 (binary64 (inject_Z max_recording_duration)
                           / chunk_duration)) + 1)%Z in
    if (max_buffer_size <? 0)%Z then inl (Raise ValueError "maxlen must be non-negative")
    else
      inr {| sample_rate := sample_rate;
             channels := channels;
             chunk_duration := chunk_duration;
             max_recording_duration := max_recording_duration;
             chunk_size := chunk_size;
             _pyaudio := None;
             _stream := None;
             _is_recording := false;
             _recording_thread := None;
             _stop_event := false;
             _audio_buffer := mkDeque [] (Some (Z.to_nat max_buffer_size));
             _current_audio_level := 0;
             _chunk_callback := false;
             _apply_noise_reduction := true |}.

Definition set_pyaudio (v : option PyAudio) (s : AudioCapture) : AudioCapture :=
  mkAudioCapture (sample_rate s) (channels s) (chunk_duration s)
    (max_recording_duration s) (chunk_size s) v (_stream s) (_is_recording s)
    (_recording_thread s) (_stop_event s) (_audio_buffer s)
    (_current_audio_level s) (_chunk_callback s) (_apply_noise_reduction s).

Definition set_stream (v : option Stream) (s : AudioCapture) : AudioCapture :=
  mkAudioCapture (sample_rate s) (channels s) (chunk_duration s)
    (max_recording_duration s) (chunk_size s) (_pyaudio s) v (_is_recording s)
    (_recording_thread s) (_stop_event s) (_audio_buffer s)
    (_current_audio_level s) (_chunk_callback s) (_apply_noise_reduction s).

Definition set_is_recording (v : bool) (s : AudioCapture) : AudioCapture :=
  mkAudioCapture (sample_rate s) (channels s) (chunk_duration s)
    (max_recording_duration s) (chunk_size s) (_pyaudio s) (_stream s) v
    (_recording_thread s) (_stop_event s) (_audio_buffer s)
    (_current_audio_level s) (_chunk_callback s) (_apply_noise_reduction s).

Definition set_recording_thread (v : option Thread) (s : AudioCapture) : AudioCapture :=
  mkAudioCapture (sample_rate s) (channels s) (chunk_duration s)
    (max_recording_duration s) (chunk_size s) (_pyaudio s) (_stream s)
    (_is_recording s) v (_stop_event s) (_audio_buffer s)
    (_current_audio_level s) (_chunk_callback s) (_apply_noise_reduction s).

Definition set_stop_event (v : bool) (s : AudioCapture) : AudioCapture :=
  mkAudioCapture (sample_rate s) (channels s) (chunk_duration s)
    (max_recording_duration s) (chunk_size s) (_pyaudio s) (_stream s)
    (_is_recording s) (_recording_thread s) v (_audio_buffer s)
    (_current_audio_level s) (_chunk_callback s) (_apply_noise_reduction s).

Definition set_audio_buffer (v : deque bytes) (s : AudioCapture) : AudioCapture :=
  mkAudioCapture (sample_rate s) (channels s) (chunk_duration s)
    (max_recording_duration s) (chunk_size s) (_pyaudio s) (_stream s)
    (_is_recording s) (_recording_thread s) (_stop_event s) v
    (_current_audio_level s) (_chunk_callback s) (_apply_noise_reduction s).

Definition set_current_audio_level (v : Q) (s : AudioCapture) : AudioCapture :=
  mkAudioCapture (sample_rate s) (channels s) (chunk_duration s)
    (max_recording_duration s) (chunk_size s) (_pyaudio s) (_stream s)
    (_is_recording s) (_recording_thread s) (_stop_event s) (_audio_buffer s)
    v (_chunk_callback s) (_apply_noise_reduction s).

Definition set_chunk_callback (v : bool) (s : AudioCapture) : AudioCapture :=
  mkAudioCapture (sample_rate s) (channels s) (chunk_duration s)
    (max_recording_duration s) (chunk_size s) (_pyaudio s) (_stream s)
    (_is_recording s) (_recording_thread s) (_stop_event s) (_audio_buffer s)
    (_current_audio_level s) v (_apply_noise_reduction s).

(** [set_noise_reduction enabled] *)
Definition set_noise_reduction (enabled : bool) (s : AudioCapture) : AudioCapture :=
  mkAudioCapture (sample_rate s) (channels s) (chunk_duration s)
    (max_recording_duration s) (chunk_size s) (_pyaudio s) (_stream s)
    (_is_recording s) (_recording_thread s) (_stop_event s) (_audio_buffer s)
    (_current_audio_level s) (_chunk_callback s) enabled.

(** Outcomes of the calls into PortAudio, NumPy, noisereduce and the
    threading module during one method call.  [maxInputChannels] lists that
    entry of each device's info in index order; [thread_start_result] is the
    outcome of [Thread.start()]; [calculated_level] is the value
    [_calculate_audio_level] returns for a chunk (it catches its own
    errors). *)
Record world : Type := mkWorld {
  PyAudio_result : exn + unit;
  maxInputChannels : exn + list Z;
  open_result : exn + unit;
  thread_start_result : exn + unit;
  is_active_result : exn + bool;
  stop_stream_result : exn + unit;
  close_result : exn + unit;
  terminate_result : exn + unit;
  NOISEREDUCE_AVAILABLE : bool;
  reduce_noise_result : bytes -> exn + bytes;
  calculated_level : bytes -> Q
}.

Section Methods.
Variable w : world.

Definition is_OSError (e : exn) : bool :=
  match cls e with OSError => true | _ => false end.

(** [_initialize_pyaudio] *)
Definition _initialize_pyaudio : M AudioCapture unit :=
  s <- get ;;
  match _pyaudio s with
  | Some _ => ret tt
  | None =>
      try_except
        (extern PyAudio_new (PyAudio_result w) ;;
         modify (set_pyaudio (Some PyAudioHandle)) ;;
         devs <- extern pa_enumerate (maxInputChannels w) ;;
         if existsb (fun c => (0 <? c)%Z) devs then ret tt
         else raise (Raise MicrophoneNotFoundError "No microphone device found"))
        (fun e =>
           if is_OSError e then
             if contains "Permission denied" (msg e) || contains "EACCES" (msg e)
             then raise (Raise PermissionDeniedError
                           ("Permission denied accessing audio device: " ++ msg e)%string)
             else raise (Raise AudioDeviceError
                           ("Failed to initialize audio device: " ++ msg e)%string)
           else raise (Raise AudioDeviceError
                         ("Failed to initialize PyAudio: " ++ msg e)%string))
  end.

(** [_open_stream] *)
Definition _open_stream : M AudioCapture unit :=
  s <- get ;;
  active <- match _stream s with
            | Some _ => extern stream_is_active (is_active_result w)
            | None => ret false
            end ;;
  if active : bool then ret tt
  else
    try_except
      (match _pyaudio s with
       | Some _ => extern pa_open (open_result w)
       | None => raise (Raise OtherException
                          "'NoneType' object has no attribute 'open'")
       end ;;
       modify (set_stream (Some StreamHandle)))
      (fun e =>
         if is_OSError e then
           let error_msg := lower (msg e) in
           if contains "permission denied" error_msg || contains "eacces" error_msg
           then raise (Raise PermissionDeniedError
                         ("Permission denied opening audio stream: " ++ msg e)%string)
           else if contains "device busy" error_msg || contains "ebusy" error_msg
           then raise (Raise DeviceBusyError
                         ("Audio device is busy: " ++ msg e)%string)
           else raise (Raise AudioDeviceError
                         ("Failed to open audio stream: " ++ msg e)%string)
         else raise (Raise AudioDeviceError
                       ("Failed to open audio stream: " ++ msg e)%string)).

(** [start_recording chunk_callback]; the recording thread it starts is
    [_recording_loop] below.  [Thread.start()] is the last statement, after
    the stream has been opened and [_is_recording] set, and nothing catches
    what it raises.  The thread object is stored before it is started;
    [stop_recording] below joins the stored thread as one that was
    started. *)
Definition start_recording (chunk_callback : bool) : M AudioCapture unit :=
  s <- get ;;
  if _is_recording s then raise (Raise RuntimeError "Recording already in progress")
  else
    _initialize_pyaudio ;;
    _open_stream ;;
    modify (fun s => set_audio_buffer (deque_clear (_audio_buffer s)) s) ;;
    modify (set_stop_event false) ;;
    modify (set_is_recording true) ;;
    modify (set_chunk_callback chunk_callback) ;;
    modify (set_recording_thread (Some ThreadHandle)) ;;
    extern thread_start (thread_start_result w).

(** [_recording_loop]: one element of [reads] per iteration the thread
    makes before it sees the stop event; [inl] is a failing
    [stream.read], which ends the loop.  An exception of the chunk
    callback is caught and logged. *)
Fixpoint _recording_loop (reads : list (exn + bytes)) : M AudioCapture unit :=
  match reads with
  | [] => ret tt
  | inl e :: _ => emit stream_read
  | inr audio_data :: rest =>
      emit stream_read ;;
      modify (set_current_audio_level (calculated_level w audio_data)) ;;
      modify (fun s => set_audio_buffer (deque_append audio_data (_audio_buffer s)) s) ;;
      s <- get ;;
      when (_chunk_callback s) (emit (chunk_callback audio_data)) ;;
      _recording_loop rest
  end.

(** [_apply_noise_reduction_filter] *)
Definition _apply_noise_reduction_filter (audio_data : bytes) : M AudioCapture bytes :=
  if negb (NOISEREDUCE_AVAILABLE w) then ret audio_data
  else try_except (extern nr_reduce_noise (reduce_noise_result w audio_data))
                  (fun _ => ret audio_data).

(** [_close_stream] *)
Definition _close_stream : M AudioCapture unit :=
  s <- get ;;
  match _stream s with
  | None => ret tt
  | Some _ =>
      try_finally
        (try_except
           (active <- extern stream_is_active (is_active_result w) ;;
            when active (extern stream_stop_stream (stop_stream_result w)) ;;
            extern stream_close (close_result w))
           (fun _ => ret tt))
        (modify (set_stream None))
  end.

(** [stop_recording] *)
Definition stop_recording : M AudioCapture bytes :=
  s <- get ;;
  if negb (_is_recording s) then raise (Raise RuntimeError "Recording is not in progress")
  else
    modify (set_stop_event true) ;;
    match _recording_thread s with
    | Some _ => emit thread_join
    | None => ret tt
    end ;;
    modify (set_is_recording false) ;;
    modify (set_chunk_callback false) ;;
    s1 <- get ;;
    let audio_data := List.concat (items (_audio_buffer s1)) in
    modify (fun s => set_audio_buffer (deque_clear (_audio_buffer s)) s) ;;
    audio_data <-
      (if _apply_noise_reduction s1 && (0 <? List.length audio_data)%nat
       then try_except (_apply_noise_reduction_filter audio_data)
                       (fun _ => ret audio_data)
       else ret audio_data) ;;
    _close_stream ;;
    ret audio_data.

(** [get_audio_level] *)
Definition get_audio_level : M AudioCapture Q :=
  s <- get ;; ret (_current_audio_level s).

(** [release_device] *)
Definition release_device : M AudioCapture unit :=
  s <- get ;;
  when (_is_recording s)
       (try_except (stop_recording ;; ret tt) (fun _ => ret tt)) ;;
  _close_stream ;;
  s1 <- get ;;
  match _pyaudio s1 with
  | Some _ =>
      try_finally
        (try_except (extern pa_terminate (terminate_result w)) (fun _ => ret tt))
        (modify (set_pyaudio None))
  | None => ret tt
  end ;;
  modify (fun s => set_audio_buffer (deque_clear (_audio_buffer s)) s) ;;
  modify (set_current_audio_level 0).

End Methods.
End Audio.

(** ** Speech recognition, [speech_recognition.py] *)
Module Speech.
Local Open Scope monad_scope.

Record TranscriptionSegment : Type := mkSegment {
  seg_text : string;
  seg_start : Q;
  seg_end : Q;
  seg_confidence : Q
}.

Record TranscriptionResult : Type := mkResult {
  text : string;
  confidence : Q;
  language_of : string;
  duration : Q;
  segments : list TranscriptionSegment;
  is_final : bool
}.

(** What faster-whisper yields: segments with their [avg_logprob], and the
    [info] object. *)
Record Segment : Type := mkWhisperSegment {
  w_text : string;
  w_start : Q;
  w_end : Q;
  avg_logprob : Q
}.

Record Info : Type := mkInfo { info_language : string; language_probability : Q }.

Inductive WhisperModel : Set := ModelHandle.
Inductive Timer : Set := TimerHandle.

Record SpeechRecognizer : Type := mkRecognizer {
  model_name : string;
  language : option string;
  vad_enabled : bool;
  vad_threshold : Q;
  _model : option WhisperModel;
  _model_loaded : bool;
  _is_streaming : bool;
  _streaming_callback : bool;
  _audio_chunks : deque bytes;
  _context_window : deque (list Q);
  _current_transcription : string;
  _unload_timer : option Timer;
  _unload_after_seconds : Q;
  _sample_rate : option Z
}.

(** [__init__]; beam size, best-of and temperature are passed through to the
    model unchanged and are part of [world] below. *)
Definition init (model_name language : string) (vad_enabled : bool)
  (vad_threshold : Q) : SpeechRecognizer :=
  {| model_name := model_name;
     language := if String.eqb language "auto" then None else Some language;
     vad_enabled := vad_enabled;
     vad_threshold := vad_threshold;
     _model := None;
     _model_loaded := false;
     _is_streaming := false;
     _streaming_callback := false;
     _audio_chunks := mkDeque [] None;
     _context_window := mkDeque [] (Some 2%nat);
     _current_transcription := "";
     _unload_timer := None;
     _unload_after_seconds := 0;
     _sample_rate := None |}.

Definition set_language_field (v : option string) (s : SpeechRecognizer) :=
  mkRecognizer (model_name s) v (vad_enabled s) (vad_threshold s) (_model s)
    (_model_loaded s) (_is_streaming s) (_streaming_callback s) (_audio_chunks s)
    (_context_window s) (_current_transcription s) (_unload_timer s)
    (_unload_after_seconds s) (_sample_rate s).

Definition set_model (v : option WhisperModel) (l : bool) (s : SpeechRecognizer) :=
  mkRecognizer (model_name s) (language s) (vad_enabled s) (vad_threshold s) v
    l (_is_streaming s) (_streaming_callback s) (_audio_chunks s)
    (_context_window s) (_current_transcription s) (_unload_timer s)
    (_unload_after_seconds s) (_sample_rate s).

Definition set_is_streaming (v : bool) (s : SpeechRecognizer) :=
  mkRecognizer (model_name s) (language s) (vad_enabled s) (vad_threshold s)
    (_model s) (_model_loaded s) v (_streaming_callback s) (_audio_chunks s)
    (_context_window s) (_current_transcription s) (_unload_timer s)
    (_unload_after_seconds s) (_sample_rate s).

Definition set_streaming_callback (v : bool) (s : SpeechRecognizer) :=
  mkRecognizer (model_name s) (language s) (vad_enabled s) (vad_threshold s)
    (_model s) (_model_loaded s) (_is_streaming s) v (_audio_chunks s)
    (_context_window s) (_current_transcription s) (_unload_timer s)
    (_unload_after_seconds s) (_sample_rate s).

Definition set_audio_chunks (v : deque bytes) (s : SpeechRecognizer) :=
  mkRecognizer (model_name s) (language s) (vad_enabled s) (vad_threshold s)
    (_model s) (_model_loaded s) (_is_streaming s) (_streaming_callback s) v
    (_context_window s) (_current_transcription s) (_unload_timer s)
    (_unload_after_seconds s) (_sample_rate s).

Definition set_context_window (v : deque (list Q)) (s : SpeechRecognizer) :=
  mkRecognizer (model_name s) (language s) (vad_enabled s) (vad_threshold s)
    (_model s) (_model_loaded s) (_is_streaming s) (_streaming_callback s)
    (_audio_chunks s) v (_current_transcription s) (_unload_timer s)
    (_unload_after_seconds s) (_sample_rate s).

Definition set_current_transcription (v : string) (s : SpeechRecognizer) :=
  mkRecognizer (model_name s) (language s) (vad_enabled s) (vad_threshold s)
    (_model s) (_model_loaded s) (_is_streaming s) (_streaming_callback s)
    (_audio_chunks s) (_context_window s) v (_unload_timer s)
    (_unload_after_seconds s) (_sample_rate s).

Definition set_unload_timer (v : option Timer) (s : SpeechRecognizer) :=
  mkRecognizer (model_name s) (language s) (vad_enabled s) (vad_threshold s)
    (_model s) (_model_loaded s) (_is_streaming s) (_streaming_callback s)
    (_audio_chunks s) (_context_window s) (_current_transcription s) v
    (_unload_after_seconds s) (_sample_rate s).

Definition set_sample_rate (v : option Z) (s : SpeechRecognizer) :=
  mkRecognizer (model_name s) (language s) (vad_enabled s) (vad_threshold s)
    (_model s) (_model_loaded s) (_is_streaming s) (_streaming_callback s)
    (_audio_chunks s) (_context_window s) (_current_transcription s)
    (_unload_timer s) (_unload_after_seconds s) v.

(** [set_language] and [set_unload_timeout] *)
Definition set_language (l : string) (s : SpeechRecognizer) : SpeechRecognizer :=
  set_language_field (if String.eqb l "auto" then None else Some l) s.

Definition set_unload_timeout (seconds : Q) (s : SpeechRecognizer) :=
  mkRecognizer (model_name s) (language s) (vad_enabled s) (vad_threshold s)
    (_model s) (_model_loaded s) (_is_streaming s) (_streaming_callback s)
    (_audio_chunks s) (_context_window s) (_current_transcription s)
    (_unload_timer s) seconds (_sample_rate s).

(** Outcomes of the calls into faster-whisper during one method call:
    the constructor, and [model.transcribe audio language vad_filter]
    with its segments consumed; [elapsed] is the wall-clock time the
    [transcribe] method measures. *)
Record world : Type := mkWorld {
  WhisperModel_result : exn + unit;
  transcribe_result : list Q -> option string -> bool -> exn + (list Segment * Info);
  elapsed : Q
}.

(** [np.frombuffer(audio_data, dtype=np.int16)]: little-endian signed
    16-bit samples; an odd number of bytes is rejected. *)
Definition int16 (lo hi : Init.Byte.byte) : Z :=
  let u := (Z.of_N (Byte.to_N lo) + 256 * Z.of_N (Byte.to_N hi))%Z in
  if (32768 <=? u)%Z then (u - 65536)%Z else u.

Fixpoint frombuffer (b : bytes) : exn + list Z :=
  match b with
  | [] => inr []
  | [_] => inl (Raise ValueError "buffer size must be a multiple of element size")
  | lo :: hi :: r =>
      match frombuffer r with
      | inl e => inl e
      | inr l => inr (int16 lo hi :: l)
      end
  end.

(** [_convert_audio_to_array]: samples divided by 32768. *)
Definition _convert_audio_to_array (audio_data : bytes) : exn + list Q :=
  match frombuffer audio_data with
  | inl e => inl e
  | inr l => inr (map (fun x => inject_Z x / 32768)%Q l)
  end.

Definition Qsum (l : list Q) : Q := fold_right Qplus 0%Q l.

(** [_has_voice_activity]: [sqrt(mean(a^2)) > vad_threshold * 0.01], decided
    on the squares; the mean of an empty array is not a number and compares
    false. *)
Definition _has_voice_activity (s : SpeechRecognizer) (audio_array : list Q) : bool :=
  match audio_array with
  | [] => false
  | _ =>
      let mean_sq := (Qsum (map (fun x => x * x) audio_array)
                      / inject_Z (Z.of_nat (List.length audio_array)))%Q in
      let limit := (vad_threshold s * (1 # 100))%Q in
      Qltb limit 0 || Qltb (limit * limit) mean_sq
  end.

Fixpoint word_count_from (in_word : bool) (t : string) : nat :=
  match t with
  | EmptyString => 0
  | String c r =>
      if is_space c then word_count_from false r
      else if in_word then word_count_from true r
      else S (word_count_from true r)
  end.

(** [len(text.split())] *)
Definition word_count (t : string) : nat := word_count_from false t.

Fixpoint any_char_in (t chars : string) : bool :=
  match t with
  | EmptyString => false
  | String c r => mem_char c chars || any_char_in r chars
  end.

(** [_estimate_confidence] *)
Definition _estimate_confidence (t : string) : Q :=
  match t with
  | EmptyString => 0
  | String first _ =>
      let c0 := (5 # 10)%Q in
      let c1 := if (10 <? String.length t)%nat then (c0 + (2 # 10))%Q else c0 in
      let c2 := if any_char_in t ".,!?;:" then (c1 + (1 # 10))%Q else c1 in
      let c3 := if is_upper first then (c2 + (1 # 10))%Q else c2 in
      let c4 := if (3 <? word_count t)%nat then (c3 + (1 # 10))%Q else c3 in
      if Qltb 1 c4 then 1%Q else c4
  end.

Section Methods.
Variable w : world.

(** [_load_model] *)
Definition _load_model : M SpeechRecognizer unit :=
  s <- get ;;
  if _model_loaded s then ret tt
  else
    try_except
      (match _unload_timer s with
       | Some _ => emit timer_cancel ;; modify (set_unload_timer None)
       | None => ret tt
       end ;;
       extern WhisperModel_new (WhisperModel_result w) ;;
       modify (set_model (Some ModelHandle) true))
      (fun e => raise (Raise ModelLoadError
                         ("Failed to load model '" ++ model_name s ++ "': " ++ msg e)%string)).

(** [_ensure_model_loaded] *)
Definition _ensure_model_loaded : M SpeechRecognizer unit :=
  s <- get ;;
  if negb (_model_loaded s) then _load_model else ret tt.

(** [_schedule_model_unload] *)
Definition _schedule_model_unload : M SpeechRecognizer unit :=
  s <- get ;;
  if Qle_bool (_unload_after_seconds s) 0 then ret tt
  else
    match _unload_timer s with
    | Some _ => emit timer_cancel
    | None => ret tt
    end ;;
    modify (set_unload_timer (Some TimerHandle)) ;;
    emit timer_start.

(** [unload_model] *)
Definition unload_model : M SpeechRecognizer unit :=
  s <- get ;;
  if negb (_model_loaded s) then ret tt
  else
    match _unload_timer s with
    | Some _ => emit timer_cancel ;; modify (set_unload_timer None)
    | None => ret tt
    end ;;
    modify (set_model None false).

(** [self._model.transcribe(...)]: without a model object the attribute
    access fails. *)
Definition call_model (audio : list Q) (lang : option string) (vad_filter : bool)
  : M SpeechRecognizer (list Segment * Info) :=
  s <- get ;;
  match _model s with
  | Some _ => extern model_transcribe (transcribe_result w audio lang vad_filter)
  | None => raise (Raise OtherException
                     "'NoneType' object has no attribute 'transcribe'")
  end.

(** [_detect_language] *)
Definition _detect_language (audio_array : list Q) : M SpeechRecognizer (string * Q) :=
  try_except
    (_ensure_model_loaded ;;
     s <- get ;;
     r <- call_model audio_array None (vad_enabled s) ;;
     ret (info_language (snd r), language_probability (snd r)))
    (fun _ => ret ("en", 0%Q)).

Definition lift_result {A} (r : exn + A) : M SpeechRecognizer A :=
  match r with inl e => raise e | inr a => ret a end.

Definition or_unknown (l : option string) : string :=
  match l with
  | Some EmptyString | None => "unknown"
  | Some l => l
  end.

(** [transcribe audio_data] *)
Definition transcribe (audio_data : bytes) : M SpeechRecognizer TranscriptionResult :=
  try_except
    (_ensure_model_loaded ;;
     audio_array <- lift_result (_convert_audio_to_array audio_data) ;;
     s <- get ;;
     detected_language <-
       match language s with
       | Some l => ret (Some l)
       | None => d <- _detect_language audio_array ;; ret (Some (fst d))
       end ;;
     s <- get ;;
     r <- call_model audio_array detected_language (vad_enabled s) ;;
     let segs := fst r in
     let transcription_segments :=
       map (fun g => mkSegment (w_text g) (w_start g) (w_end g) (avg_logprob g)) segs in
     let total_confidence := fold_left (fun acc g => acc + avg_logprob g)%Q segs 0%Q in
     let segment_count := List.length segs in
     let avg_confidence :=
       if (0 <? segment_count)%nat
       then (total_confidence / inject_Z (Z.of_nat segment_count))%Q else 0%Q in
     let final_text := strip (String.concat "" (map w_text segs)) in
     _schedule_model_unload ;;
     ret (mkResult final_text avg_confidence (or_unknown detected_language)
                   (elapsed w) transcription_segments true))
    (fun e => raise (Raise TranscriptionError ("Transcription failed: " ++ msg e)%string)).

(** [start_streaming_transcription callback sample_rate] *)
Definition start_streaming_transcription (callback : bool) (sample_rate : Z)
  : M SpeechRecognizer unit :=
  s <- get ;;
  if _is_streaming s
  then raise (Raise RuntimeError "Streaming transcription already in progress")
  else
    _ensure_model_loaded ;;
    modify (fun s => set_audio_chunks (deque_clear (_audio_chunks s)) s) ;;
    modify (set_current_transcription "") ;;
    modify (fun s => set_context_window (deque_clear (_context_window s)) s) ;;
    modify (set_is_streaming true) ;;
    modify (set_streaming_callback callback) ;;
    modify (set_sample_rate (Some sample_rate)).

(** [process_audio_chunk audio_chunk] *)
Definition process_audio_chunk (audio_chunk : bytes) : M SpeechRecognizer unit :=
  s <- get ;;
  if negb (_is_streaming s) then ret tt
  else
    try_except
      (chunk_array <- lift_result (_convert_audio_to_array audio_chunk) ;;
       if vad_enabled s && negb (_has_voice_activity s chunk_array) then ret tt
       else
         modify (fun s => set_context_window
                            (deque_append chunk_array (_context_window s)) s) ;;
         s1 <- get ;;
         let combined_audio := List.concat (items (_context_window s1)) in
         try_except
           (r <- call_model combined_audio (language s1) false ;;
            let new_transcription := strip (String.concat "" (map w_text (fst r))) in
            s2 <- get ;;
            if negb (String.eqb new_transcription (_current_transcription s2)) then
              modify (set_current_transcription new_transcription) ;;
              when (_streaming_callback s2)
                   (emit (streaming_callback new_transcription false))
            else ret tt)
           (fun _ => ret tt))
      (fun _ => ret tt).

(** [stop_streaming_transcription] *)
Definition stop_streaming_transcription : M SpeechRecognizer unit :=
  s <- get ;;
  if negb (_is_streaming s) then ret tt
  else
    modify (set_is_streaming false) ;;
    modify (set_streaming_callback false) ;;
    modify (fun s => set_audio_chunks (deque_clear (_audio_chunks s)) s) ;;
    modify (fun s => set_context_window (deque_clear (_context_window s)) s) ;;
    _schedule_model_unload.

(** [finalize_transcription audio_data]; [None] is the default argument.
    [self._sample_rate] exists only once streaming has been started. *)
Definition finalize_transcription (audio_data : option bytes)
  : M SpeechRecognizer TranscriptionResult :=
  try_except
    (match audio_data with
     | Some (b :: r) =>
         s <- get ;;
         match _sample_rate s with
         | None => raise (Raise OtherException
                            "'SpeechRecognizer' object has no attribute '_sample_rate'")
         | Some _ => ret tt
         end ;;
         result <- transcribe (b :: r) ;;
         s <- get ;;
         when (_is_streaming s) stop_streaming_transcription ;;
         ret result
     | _ =>
         s <- get ;;
         let final_text := _current_transcription s in
         let confidence := _estimate_confidence final_text in
         when (_is_streaming s) stop_streaming_transcription ;;
         s1 <- get ;;
         let result := mkResult final_text confidence (or_unknown (language s1))
                                0 [] true in
         when (_streaming_callback s1) (emit (streaming_callback final_text true)) ;;
         ret result
     end)
    (fun e => raise (Raise TranscriptionError ("Finalization failed: " ++ msg e)%string)).

End Methods.
End Speech.

(** ** The orchestrator, [daemon.py] *)
Module Daemon.
Local Open Scope monad_scope.

(** The subsystems are [None] until [_initialize_subsystems] has run.  The
    overlay and the input simulator are external: the record keeps whether
    they exist, and [world] gives what their methods do.  [config] holds
    [config.audio.sample_rate]. *)
Record ZephyrDaemon : Type := mkDaemon {
  config : option Z;
  audio_capture : option Audio.AudioCapture;
  speech_recognizer : option Speech.SpeechRecognizer;
  input_simulator : bool;
  ui_overlay : bool;
  _is_recording : bool
}.

Definition set_audio_capture (v : option Audio.AudioCapture) (d : ZephyrDaemon) :=
  mkDaemon (config d) v (speech_recognizer d) (input_simulator d) (ui_overlay d)
           (_is_recording d).

Definition set_speech_recognizer (v : option Speech.SpeechRecognizer) (d : ZephyrDaemon) :=
  mkDaemon (config d) (audio_capture d) v (input_simulator d) (ui_overlay d)
           (_is_recording d).

Definition set_is_recording (v : bool) (d : ZephyrDaemon) :=
  mkDaemon (config d) (audio_capture d) (speech_recognizer d) (input_simulator d)
           (ui_overlay d) v.

(** Outcomes of the external calls made while one handler runs;
    [is_visible] is the value of [ui_overlay.is_visible] it reads. *)
Record world : Type := mkWorld {
  audio : Audio.world;
  speech : Speech.world;
  is_visible : bool;
  show_recording_result : exn + unit;
  hide_result : exn + unit;
  update_transcription_result : exn + unit;
  show_completion_result : exn + unit;
  show_error_result : exn + unit;
  start_streaming_input_result : exn + unit;
  finalize_input_result : exn + unit
}.

(** Running a method of a sub-object inside the daemon: the sub-object is
    mutated in place, also when the method raises. *)
Definition on_audio {A} (m : M Audio.AudioCapture A) (ac : Audio.AudioCapture)
  : M ZephyrDaemon A := fun d =>
  let '(ac', t, r) := m ac in (set_audio_capture (Some ac') d, t, r).

Definition on_speech {A} (m : M Speech.SpeechRecognizer A) (sr : Speech.SpeechRecognizer)
  : M ZephyrDaemon A := fun d =>
  let '(sr', t, r) := m sr in (set_speech_recognizer (Some sr') d, t, r).

Section Handlers.
Variable w : world.

(** [_handle_error message] *)
Definition _handle_error (message : string) : M ZephyrDaemon unit :=
  d <- get ;;
  when (ui_overlay d)
       (try_except (extern (ui_show_error message) (show_error_result w))
                   (fun _ => ret tt)).

(** The body of the [try] in [_on_hotkey_press]. *)
Definition press_body : M ZephyrDaemon unit :=
  d <- get ;;
  when (ui_overlay d) (extern ui_show_recording (show_recording_result w)) ;;
  match speech_recognizer d with
  | Some sr =>
      emit sr_start_streaming_transcription ;;
      on_speech (Speech.start_streaming_transcription (speech w) true
                   (match config d with Some r => r | None => 16000%Z end)) sr
  | None => ret tt
  end ;;
  when (input_simulator d)
       (extern in_start_streaming_input (start_streaming_input_result w)) ;;
  match audio_capture d with
  | Some ac => emit ac_start_recording ;;
               on_audio (Audio.start_recording (audio w) true) ac
  | None => ret tt
  end ;;
  modify (set_is_recording true).

(** [_on_hotkey_press] *)
Definition _on_hotkey_press : M ZephyrDaemon unit :=
  d <- get ;;
  if _is_recording d then ret tt
  else if ui_overlay d && is_visible w then extern ui_hide (hide_result w)
  else
    try_except press_body
      (fun e =>
         _handle_error ("Failed to start recording: " ++ msg e)%string ;;
         modify (set_is_recording false)).

Definition truthy (audio_data : option bytes) : bool :=
  match audio_data with
  | Some (_ :: _) => true
  | _ => false
  end.

(** The body of the [try] in [_on_hotkey_release]. *)
Definition release_body : M ZephyrDaemon unit :=
  d <- get ;;
  audio_data <-
    match audio_capture d with
    | Some ac => emit ac_stop_recording ;;
                 b <- on_audio (Audio.stop_recording (audio w)) ac ;;
                 ret (Some b)
    | None => ret None
    end ;;
  match speech_recognizer d with
  | Some sr =>
      if truthy audio_data then
        emit sr_finalize_transcription ;;
        result <- on_speech (Speech.finalize_transcription (speech w) audio_data) sr ;;
        when (ui_overlay d)
             (extern (ui_update_transcription (Speech.text result) true)
                     (update_transcription_result w)) ;;
        when (ui_overlay d) (extern ui_show_completion (show_completion_result w))
      else ret tt
  | None => ret tt
  end ;;
  when (input_simulator d) (extern in_finalize_input (finalize_input_result w)) ;;
  modify (set_is_recording false) ;;
  d1 <- get ;;
  match audio_capture d1 with
  | Some ac => emit ac_release_device ;;
               on_audio (Audio.release_device (audio w)) ac
  | None => ret tt
  end.

(** [_on_hotkey_release] *)
Definition _on_hotkey_release : M ZephyrDaemon unit :=
  d <- get ;;
  if negb (_is_recording d) then ret tt
  else
    try_except release_body
      (fun e =>
         _handle_error ("Failed to process recording: " ++ msg e)%string ;;
         modify (set_is_recording false) ;;
         d1 <- get ;;
         match audio_capture d1 with
         | Some ac =>
             try_except (emit ac_release_device ;;
                         on_audio (Audio.release_device (audio w)) ac)
                        (fun _ => ret tt)
         | None => ret tt
         end).

End Handlers.
End Daemon.

(** ** More of [hotkey_listener.py]: the life cycle of the listener *)
Module HotkeyLifecycle.
Import Hotkey.

(** The attributes [start], [stop] and [set_hotkey] use besides those of
    the key callbacks, which [keys] holds. *)
Record Listener : Type := mkLifecycle {
  hotkey : string;
  _is_running : bool;
  keys : HotkeyListener
}.

(** The reset of the press state that [start] and [stop] both do. *)
Definition reset (k : HotkeyListener) : HotkeyListener :=
  with_modifiers (with_press k false None) (empty_set raw_key).

(** [start]; [listener] is the outcome of creating and starting the pynput
    listener thread, which happens after the press state has been reset and
    before [_is_running] is set. *)
Definition start (listener : exn + unit) (l : Listener) : Listener * option exn :=
  if _is_running l
  then (l, Some (Raise RuntimeError "Hotkey listener is already running"))
  else
    match listener with
    | inl e => (mkLifecycle (hotkey l) false (reset (keys l)), Some e)
    | inr _ => (mkLifecycle (hotkey l) true (reset (keys l)), None)
    end.

(** [stop]; an exception of the pynput listener's own [stop] is ignored. *)
Definition stop (l : Listener) : Listener :=
  if negb (_is_running l) then l
  else mkLifecycle (hotkey l) false (reset (keys l)).

Definition with_target (k : HotkeyListener) (t : mapped) (r : set mapped)
  : HotkeyListener :=
  {| on_press_callback := on_press_callback k;
     on_release_callback := on_release_callback k;
     min_press_duration := min_press_duration k;
     _key_pressed := _key_pressed k;
     _press_start_time := _press_start_time k;
     _pressed_modifiers := _pressed_modifiers k;
     _target_key := t;
     _required_modifiers := r |}.

(** [set_hotkey hotkey]: the listener as it is left, and the exception
    raised if any; [listener] is as in [start]. *)
Definition set_hotkey (listener : exn + unit) (l : Listener) (new_hotkey : string)
  : Listener * option (HotkeyError + exn) :=
  let was_running := _is_running l in
  let l1 := if was_running then stop l else l in
  let l2 := mkLifecycle new_hotkey (_is_running l1) (keys l1) in
  match _parse_hotkey new_hotkey with
  | inl e => (l2, Some (inl e))
  | inr (t, r) =>
      let l3 := mkLifecycle new_hotkey (_is_running l2) (with_target (keys l2) t r) in
      if was_running then
        match start listener l3 with
        | (l4, Some e) => (l4, Some (inr e))
        | (l4, None) => (l4, None)
        end
      else (l3, None)
  end.

End HotkeyLifecycle.

(** ** More of [evdev_hotkey_listener.py]: parsing and the listen loop

    The key codes are constants of the evdev package. *)
Module EvdevSetup.
Import Evdev.

Section Ecodes.
Variables KEY_GRAVE KEY_SPACE KEY_LEFTCTRL KEY_LEFTSHIFT KEY_LEFTALT EV_KEY : Z.

Definition key_map : list (string * Z) :=
  [ ("`", KEY_GRAVE); ("space", KEY_SPACE); ("ctrl", KEY_LEFTCTRL);
    ("shift", KEY_LEFTSHIFT); ("alt", KEY_LEFTALT) ].

Fixpoint get (name : string) (m : list (string * Z)) : option Z :=
  match m with
  | [] => None
  | (k, v) :: r => if String.eqb name k then Some v else get name r
  end.

Fixpoint known_modifiers (names : list string) (acc : set Z) : set Z :=
  match names with
  | [] => acc
  | n :: r =>
      match get n key_map with
      | Some code => known_modifiers r (set_add Z.eq_dec code acc)
      | None => known_modifiers r acc
      end
  end.

(** [_parse_hotkey] *)
Definition _parse_hotkey (hotkey : string) : Z * set Z :=
  if mem_char "+" hotkey then
    let parts := split_on "+" (lower hotkey) in
    let '(mods, target) := Hotkey.init_last "" parts in
    let modifiers := known_modifiers mods (empty_set Z) in
    (match get target key_map with Some c => c | None => KEY_GRAVE end, modifiers)
  else
    (match get (lower hotkey) key_map with Some c => c | None => KEY_GRAVE end,
     empty_set Z).

(** [__init__] *)
Definition init (hotkey : string) (press_cb release_cb : bool) (min_ms : Z)
  : EvdevHotkeyListener :=
  let '(target, modifiers) := _parse_hotkey hotkey in
  {| on_press_callback := press_cb;
     on_release_callback := release_cb;
     min_press_duration := (inject_Z min_ms / 1000)%Q;
     _pressed_keys := empty_set Z;
     _hotkey_pressed := false;
     _press_start_time := None;
     _target_key := target;
     _required_modifiers := modifiers |}.

(** An input event as the loop reads it, with the clock reading at the time
    it is handled. *)
Record input_event : Type := mkEvent {
  ev_type : Z;
  ev_code : Z;
  ev_value : Z;
  ev_now : Q
}.

(** [_listen_loop]: the events read from the devices are handled in order;
    only those of type [EV_KEY] reach [_handle_key_event]. *)
Fixpoint _listen_loop (s : EvdevHotkeyListener) (events : list input_event)
  : EvdevHotkeyListener * list fired :=
  match events with
  | [] => (s, [])
  | e :: r =>
      if (ev_type e =? EV_KEY)%Z then
        let '(s1, c1) := _handle_key_event s (ev_code e) (ev_value e) (ev_now e) in
        let '(s2, c2) := _listen_loop s1 r in
        (s2, c1 ++ c2)
      else _listen_loop s r
  end.

End Ecodes.
End EvdevSetup.

(** ** More of [speech_recognition.py]: rating a result *)
Module SpeechRating.
Import Speech.

(** [is_low_confidence result threshold] *)
Definition is_low_confidence (result : TranscriptionResult) (threshold : Q) : bool :=
  Qltb (confidence result) threshold.

(** [get_confidence_indicator result] *)
Definition get_confidence_indicator (result : TranscriptionResult) : string :=
  if Qle_bool (9 # 10) (confidence result) then "✓"
  else if Qle_bool (7 # 10) (confidence result) then "~"
  else "?".


End SpeechRating.


(** * Vocabulary of the properties

    Predicates on states and traces, and the concrete objects and
    environments the examples use. *)

(** [keeps R Q m]: from every state, [m] ends in a state related by [R] to
    the one it started in and makes only calls satisfying [Q], whether it
    returns or raises. *)
Definition keeps {S A} (R : S -> S -> Prop) (Q : call -> Prop) (m : M S A) : Prop :=
  forall s, R s (state_of (m s)) /\ Forall Q (calls_of (m s)).

(** [returns P m]: every value [m] returns satisfies [P]. *)
Definition returns {S A} (P : A -> Prop) (m : M S A) : Prop :=
  forall s a, outcome_of (m s) = inr a -> P a.

(** ** Vocabulary for the hotkey listeners *)
Module HotkeyDefs.
Import Hotkey.

(** The listener built by [HotkeyListener(hotkey='backslash',
    min_press_duration=100)] with both callbacks registered. *)
Definition backslash_listener : HotkeyListener :=
  {| on_press_callback := true;
     on_release_callback := true;
     min_press_duration := (100 # 1000)%Q;
     _key_pressed := false;
     _press_start_time := None;
     _pressed_modifiers := [];
     _target_key := Chr "\";
     _required_modifiers := [] |}.

(** The listener built for the documented combination ["ctrl+alt_r"]. *)
Definition ctrl_alt_r_listener : HotkeyListener :=
  {| on_press_callback := true;
     on_release_callback := true;
     min_press_duration := (100 # 1000)%Q;
     _key_pressed := false;
     _press_start_time := None;
     _pressed_modifiers := [];
     _target_key := Special alt_r;
     _required_modifiers := [Special ctrl] |}.

Definition backslash_key : raw_key := KeyCode (Some "\") 92.

(** Whether the configured target is one of the keys [_is_modifier_key]
    accepts. *)
Definition target_is_modifier (t : mapped) : bool :=
  match t with
  | Special k => existsb (Key_eqb k) modifier_keys
  | Chr _ => false
  end.

(** Latched only if the target is not a modifier key. *)
Definition latch_ok (s : HotkeyListener) : Prop :=
  _key_pressed s = true -> target_is_modifier (_target_key s) = false.

End HotkeyDefs.

(** ** Vocabulary for the audio capture *)
Module AudioDefs.
Import Audio.

(** The last [n] elements of a list. *)
Definition keep_last {A} (n : nat) (l : list A) : list A :=
  skipn (List.length l - n) l.

(** The chunks a run of the capture loop obtained: the reads up to the
    first failing one. *)
Fixpoint chunks_read (reads : list (exn + bytes)) : list bytes :=
  match reads with
  | inr b :: r => b :: chunks_read r
  | _ => []
  end.

(** The state [stop_recording] leaves when it is entered while recording. *)
Definition stopped (s : AudioCapture) : AudioCapture :=
  mkAudioCapture (sample_rate s) (channels s) (chunk_duration s)
    (max_recording_duration s) (chunk_size s) (_pyaudio s) None false
    (_recording_thread s) true (deque_clear (_audio_buffer s))
    (_current_audio_level s) false (_apply_noise_reduction s).

(** The state [release_device] leaves. *)
Definition released (s : AudioCapture) : AudioCapture :=
  mkAudioCapture (sample_rate s) (channels s) (chunk_duration s)
    (max_recording_duration s) (chunk_size s) None None false
    (_recording_thread s) (if _is_recording s then true else _stop_event s)
    (deque_clear (_audio_buffer s)) 0
    (if _is_recording s then false else _chunk_callback s)
    (_apply_noise_reduction s).

(** The calls the capture object makes: to PortAudio, to its thread, to
    noisereduce and to the chunk callback. *)
Definition audio_call (c : call) : Prop :=
  match c with
  | PyAudio_new | pa_enumerate | pa_open | stream_is_active | stream_stop_stream
  | stream_close | pa_terminate | stream_read | thread_start | thread_join
  | nr_reduce_noise | chunk_callback _ => True
  | _ => False
  end.

(** It can leave the PyAudio handle allocated, though: here the device is
    busy when the stream is opened. *)
Definition device_busy : world :=
  {| PyAudio_result := inr tt;
     maxInputChannels := inr [2%Z];
     open_result := inl (Raise OSError "[Errno -9985] Device busy");
     thread_start_result := inr tt;
     is_active_result := inr true;
     stop_stream_result := inr tt;
     close_result := inr tt;
     terminate_result := inr tt;
     NOISEREDUCE_AVAILABLE := false;
     reduce_noise_result := fun b => inr b;
     calculated_level := fun _ => 0%Q |}.

End AudioDefs.

(** ** Vocabulary for the speech recognition *)
Module SpeechDefs.
Import Speech.

(** Calls other than an invocation of the streaming callback. *)
Definition not_callback (c : call) : Prop :=
  match c with
  | streaming_callback _ _ => False
  | _ => True
  end.

(** The streaming flag and the registered callback are as before. *)
Definition same_streaming (s s' : SpeechRecognizer) : Prop :=
  _is_streaming s' = _is_streaming s /\
  _streaming_callback s' = _streaming_callback s.

(** A recognizer as the daemon builds it by default, and a world in which
    the model cannot be constructed. *)
Definition base_recognizer : SpeechRecognizer := init "base" "en" false (5 # 10).

Definition no_model : world :=
  {| WhisperModel_result := inl (Raise OSError "model file not found");
     transcribe_result := fun _ _ _ => inr ([], mkInfo "en" 1);
     elapsed := 0 |}.

(** The mean of the segment confidences, 0 without segments. *)
Definition mean_confidence (l : list TranscriptionSegment) : Q :=
  if (0 <? List.length l)%nat
  then (fold_left (fun acc g => acc + seg_confidence g) l 0
        / inject_Z (Z.of_nat (List.length l)))%Q
  else 0%Q.

(** Faster-whisper reporting one segment with average log-probability
    -1/2. *)
Definition one_segment : world :=
  {| WhisperModel_result := inr tt;
     transcribe_result :=
       fun _ _ _ => inr ([mkWhisperSegment " hello" 0 1 (-1 # 2)], mkInfo "en" 1);
     elapsed := 1 |}.

(** The default recognizer after [start_streaming_transcription] with a
    callback registered. *)
Definition streaming_recognizer : SpeechRecognizer :=
  state_of (start_streaming_transcription one_segment true 16000 base_recognizer).

End SpeechDefs.

(** ** Vocabulary for the orchestrator *)
Module DaemonDefs.
Import Daemon.

(** The capture object of the daemon has no stream, no PyAudio handle and
    is not recording. *)
Definition device_released (d : ZephyrDaemon) : Prop :=
  match audio_capture d with
  | Some ac => Audio._stream ac = None /\ Audio._pyaudio ac = None /\
               Audio._is_recording ac = false
  | None => True
  end.

(** The capture object of the daemon has no stream open and is not
    recording. *)
Definition audio_idle (d : ZephyrDaemon) : Prop :=
  match audio_capture d with
  | Some ac => Audio._stream ac = None /\ Audio._is_recording ac = false
  | None => True
  end.

(** Calls that are neither an invocation of the streaming callback nor a
    call of [finalize_transcription]. *)
Definition quiet_call (c : call) : Prop :=
  match c with
  | streaming_callback _ _ | sr_finalize_transcription => False
  | _ => True
  end.

Definition default_capture : Audio.AudioCapture :=
  {| Audio.sample_rate := 16000;
     Audio.channels := 1;
     Audio.chunk_duration := 1;
     Audio.max_recording_duration := 60;
     Audio.chunk_size := 16000;
     Audio._pyaudio := None;
     Audio._stream := None;
     Audio._is_recording := false;
     Audio._recording_thread := None;
     Audio._stop_event := false;
     Audio._audio_buffer := mkDeque [] (Some 61%nat);
     Audio._current_audio_level := 0;
     Audio._chunk_callback := false;
     Audio._apply_noise_reduction := true |}.

(** One working microphone; noisereduce not installed. *)
Definition working_microphone : Audio.world :=
  {| Audio.PyAudio_result := inr tt;
     Audio.maxInputChannels := inr [2%Z];
     Audio.open_result := inr tt;
     Audio.thread_start_result := inr tt;
     Audio.is_active_result := inr true;
     Audio.stop_stream_result := inr tt;
     Audio.close_result := inr tt;
     Audio.terminate_result := inr tt;
     Audio.NOISEREDUCE_AVAILABLE := false;
     Audio.reduce_noise_result := fun b => inr b;
     Audio.calculated_level := fun _ => 0%Q |}.

(** The same microphone when the process cannot start another thread. *)
Definition thread_exhausted : Audio.world :=
  {| Audio.PyAudio_result := inr tt;
     Audio.maxInputChannels := inr [2%Z];
     Audio.open_result := inr tt;
     Audio.thread_start_result := inl (Raise RuntimeError "can't start new thread");
     Audio.is_active_result := inr true;
     Audio.stop_stream_result := inr tt;
     Audio.close_result := inr tt;
     Audio.terminate_result := inr tt;
     Audio.NOISEREDUCE_AVAILABLE := false;
     Audio.reduce_noise_result := fun b => inr b;
     Audio.calculated_level := fun _ => 0%Q |}.

Definition all_well (a : Audio.world) : world :=
  {| audio := a;
     speech := SpeechDefs.one_segment;
     is_visible := false;
     show_recording_result := inr tt;
     hide_result := inr tt;
     update_transcription_result := inr tt;
     show_completion_result := inr tt;
     show_error_result := inr tt;
     start_streaming_input_result := inr tt;
     finalize_input_result := inr tt |}.

(** The daemon after [_initialize_subsystems], and after a first hot-key
    press that succeeds. *)
Definition idle_daemon : ZephyrDaemon :=
  mkDaemon (Some 16000%Z) (Some default_capture)
           (Some SpeechDefs.base_recognizer) true true false.

Definition recording_daemon : ZephyrDaemon :=
  state_of (_on_hotkey_press (all_well working_microphone) idle_daemon).

Definition recording_capture : Audio.AudioCapture :=
  state_of (Audio.start_recording working_microphone true default_capture).

(** Invocations of the two hot-key handlers, each with the environment it
    runs in. *)
Inductive event : Type :=
  | HotkeyPress (w : world)
  | HotkeyRelease (w : world).

Definition handle (d : ZephyrDaemon) (ev : event) : ZephyrDaemon :=
  match ev with
  | HotkeyPress w => state_of (_on_hotkey_press w d)
  | HotkeyRelease w => state_of (_on_hotkey_release w d)
  end.

(** If the event is a press, the capture thread can be started while it is
    handled. *)
Definition thread_starts (ev : event) : Prop :=
  match ev with
  | HotkeyPress w => Audio.thread_start_result (audio w) = inr tt
  | HotkeyRelease _ => True
  end.

End DaemonDefs.

(** ** Vocabulary for the further properties of the hotkey listeners *)
Module HotkeyDefs2.
Import Hotkey.

(** How often a callback occurs in a log of [run]. *)
Definition fired_eqb (a b : fired) : bool :=
  match a, b with
  | OnPress, OnPress | OnRelease, OnRelease => true
  | _, _ => false
  end.

Definition count_fired (f : fired) (log : list (bool * list fired)) : nat :=
  List.length (filter (fired_eqb f) (callbacks_of log)).

Definition latched (s : HotkeyListener) : nat :=
  if _key_pressed s then 1%nat else 0%nat.

(** The value of [KEY_MAPPING] under some name. *)
Definition mapped_value (m : mapped) : Prop :=
  exists name : string, lookup name KEY_MAPPING = Some m.

End HotkeyDefs2.

(** ** Vocabulary for the further properties of the audio capture *)
Module AudioDefs2.
Import Audio.

(** The chunks handed to the chunk callback, in the order of the calls. *)
Definition delivered (calls : list call) : list bytes :=
  flat_map (fun c => match c with chunk_callback b => [b] | _ => [] end) calls.

(** What [stop_recording] returns for the raw bytes of the buffer: the
    output of noisereduce when noise reduction is enabled, the library is
    there, the audio is not empty and the filter does not fail; the raw
    bytes otherwise. *)
Definition treated (w : world) (s : AudioCapture) (raw : bytes) : bytes :=
  if _apply_noise_reduction s && (0 <? List.length raw)%nat && NOISEREDUCE_AVAILABLE w
  then match reduce_noise_result w raw with
       | inr reduced => reduced
       | inl _ => raw
       end
  else raw.

(** Stream, recording flag and noise-reduction switch are as before. *)
Definition same_session (s s' : AudioCapture) : Prop :=
  _stream s' = _stream s /\
  _is_recording s' = _is_recording s /\
  _apply_noise_reduction s' = _apply_noise_reduction s /\
  _chunk_callback s' = _chunk_callback s /\
  _pyaudio s' = _pyaudio s /\
  _recording_thread s' = _recording_thread s.

(** Neither the construction of PyAudio nor its termination. *)
Definition not_pyaudio_lifetime (c : call) : Prop :=
  match c with
  | PyAudio_new | pa_enumerate | pa_terminate => False
  | _ => True
  end.

Fixpoint last_chunk (l : list bytes) : option bytes :=
  match l with
  | [] => None
  | [b] => Some b
  | _ :: r => last_chunk r
  end.

(** PortAudio starts, but none of its two devices has input channels. *)
Definition no_microphone : world :=
  {| PyAudio_result := inr tt;
     maxInputChannels := inr [0%Z; 0%Z];
     open_result := inr tt;
     thread_start_result := inr tt;
     is_active_result := inr true;
     stop_stream_result := inr tt;
     close_result := inr tt;
     terminate_result := inr tt;
     NOISEREDUCE_AVAILABLE := false;
     reduce_noise_result := fun b => inr b;
     calculated_level := fun _ => 0%Q |}.

(** A working microphone, with noisereduce installed but failing. *)
Definition failing_filter : world :=
  {| PyAudio_result := inr tt;
     maxInputChannels := inr [2%Z];
     open_result := inr tt;
     thread_start_result := inr tt;
     is_active_result := inr true;
     stop_stream_result := inr tt;
     close_result := inr tt;
     terminate_result := inr tt;
     NOISEREDUCE_AVAILABLE := true;
     reduce_noise_result := fun _ => inl (Raise ValueError "array is too short");
     calculated_level := fun _ => (1 # 4)%Q |}.

(** An object as [AudioCapture(16000, 1, 1.0, 2)] builds it (capacity 3),
    and that object after a successful [start_recording]. *)
Definition small_capture : AudioCapture :=
  {| sample_rate := 16000;
     channels := 1;
     chunk_duration := 1;
     max_recording_duration := 2;
     chunk_size := 16000;
     _pyaudio := None;
     _stream := None;
     _is_recording := false;
     _recording_thread := None;
     _stop_event := false;
     _audio_buffer := mkDeque [] (Some 3%nat);
     _current_audio_level := 0;
     _chunk_callback := false;
     _apply_noise_reduction := true |}.

Definition small_recording : AudioCapture :=
  state_of (start_recording failing_filter true small_capture).

End AudioDefs2.

(** ** More vocabulary for the recognizer *)
Module SpeechDefs2.
Import Speech SpeechDefs.

(** The audio thread handing chunks to [process_audio_chunk] one after the
    other, each with the behaviour of the model while it is processed. *)
Fixpoint feed (chunks : list (world * bytes)) : M SpeechRecognizer unit :=
  match chunks with
  | [] => ret tt
  | (w, b) :: r => bind (process_audio_chunk w b) (fun _ => feed r)
  end.

(** The texts passed to the streaming callback, in the order of the calls. *)
Definition texts (calls : list call) : list string :=
  flat_map (fun c => match c with streaming_callback t _ => [t] | _ => [] end) calls.

(** A call of the model, or a partial (not final) update. *)
Definition partial_update (c : call) : Prop :=
  match c with
  | model_transcribe | streaming_callback _ false => True
  | _ => False
  end.


(** The context window holds at most the two arrays [__init__] allows. *)
Definition window_bounded (s : SpeechRecognizer) : Prop :=
  maxlen (_context_window s) = Some 2%nat /\
  (List.length (items (_context_window s)) <= 2)%nat.

(** [n] samples of digital silence. *)
Definition silence (n : nat) : bytes := repeat Init.Byte.x00 (2 * n).

(** A recognizer with the energy gate enabled, streaming. *)
Definition gated_recognizer : SpeechRecognizer :=
  state_of (start_streaming_transcription one_segment true 16000
              (init "base" "en" true (5 # 10))).

(** Faster-whisper reporting first [" hello"], then [" hello world"] once
    the context window holds more than three samples. *)
Definition growing : world :=
  {| WhisperModel_result := inr tt;
     transcribe_result :=
       fun a _ _ =>
         if (3 <? List.length a)%nat
         then inr ([mkWhisperSegment " hello" 0 1 (-1 # 2);
                    mkWhisperSegment " world" 1 2 (-1 # 4)], mkInfo "en" 1)
         else inr ([mkWhisperSegment " hello" 0 1 (-1 # 2)], mkInfo "en" 1);
     elapsed := 1 |}.


(** The log-probabilities the model reports are not positive. *)
Definition reports_log_probabilities (w : world) : Prop :=
  forall a l v segs info,
    transcribe_result w a l v = inr (segs, info) ->
    Forall (fun g => avg_logprob g <= 0)%Q segs.

End SpeechDefs2.

(** ** More vocabulary for the orchestrator *)
Module DaemonDefs2.
Import Daemon DaemonDefs.

(** The daemon is not recording, but its recognizer is still in a
    streaming session. *)
Definition session_left_open (d : ZephyrDaemon) : Prop :=
  _is_recording d = false /\
  exists sr, speech_recognizer d = Some sr /\ Speech._is_streaming sr = true.

(** The recording flag of the daemon and the state of its capture object
    tell the same: the capture records and has a stream open exactly when
    the daemon is recording. *)
Definition flags_agree (d : ZephyrDaemon) : Prop :=
  match audio_capture d with
  | Some ac => Audio._is_recording ac = _is_recording d /\
               (Audio._stream ac = None <-> _is_recording d = false)
  | None => True
  end.

(** The sample rate the press handler passes to the recognizer. *)
Definition configured_rate (d : ZephyrDaemon) : Z :=
  match config d with Some r => r | None => 16000%Z end.

(** The recording daemon once two chunks of two samples each have been
    captured. *)
Definition captured_daemon : ZephyrDaemon :=
  state_of
    (match audio_capture recording_daemon with
     | Some ac =>
         on_audio (Audio._recording_loop working_microphone
                     [inr [Init.Byte.x01; Init.Byte.x02; Init.Byte.x03; Init.Byte.x04];
                      inr [Init.Byte.x05; Init.Byte.x06; Init.Byte.x07; Init.Byte.x08]])
                  ac
     | None => ret tt
     end recording_daemon).

End DaemonDefs2.

(** * Properties *)

(** ** Comparison helpers *)

Lemma Qltb_ge (x y : Q) : Qltb x y = false <-> (y <= x)%Q.
Proof.
  unfold Qltb. rewrite negb_false_iff. apply Qle_bool_iff.
Qed.

(** ** The hotkey listeners *)
Module HotkeyFacts.
Import Hotkey HotkeyDefs.

Example init_backslash : init "backslash" true true 100 = inr backslash_listener.
Proof. reflexivity. Qed.

Example init_ctrl_alt_r : init "ctrl+alt_r" true true 100 = inr ctrl_alt_r_listener.
Proof. reflexivity. Qed.

Lemma Key_eqb_eq (a b : Key) : Key_eqb a b = true -> a = b.
Proof. unfold Key_eqb. destruct (Key_eq_dec a b); congruence. Qed.

Lemma target_key_modifier (s : HotkeyListener) (key : raw_key) :
  _is_target_key s key = true ->
  _is_modifier_key key = target_is_modifier (_target_key s).
Proof.
  unfold _is_target_key, _is_modifier_key, target_is_modifier.
  destruct key as [[c|] vk|k]; try discriminate.
  - destruct (_target_key s); simpl; [reflexivity | discriminate].
  - destruct (_target_key s) as [c|k']; simpl; [discriminate|].
    intro H. apply Key_eqb_eq in H. now subst.
Qed.

Lemma handle_target (s : HotkeyListener) (ev : raw_event) :
  _target_key (fst (fst (handle s ev))) = _target_key s.
Proof.
  destruct ev as [key now|key now]; simpl;
    [unfold _on_key_press | unfold _on_key_release];
    repeat match goal with |- context [if ?b then _ else _] => destruct b end;
    reflexivity.
Qed.

Lemma handle_latch_ok (s : HotkeyListener) (ev : raw_event) :
  latch_ok s -> latch_ok (fst (fst (handle s ev))).
Proof.
  unfold latch_ok. intro I.
  destruct ev as [key now|key now]; simpl.
  - unfold _on_key_press.
    destruct (_is_modifier_key key) eqn:Em; simpl; auto.
    destruct (_is_target_key s key) eqn:Et; simpl; auto.
    destruct (_are_modifiers_pressed s); simpl; auto.
    destruct (_key_pressed s); simpl; auto.
    intros _. rewrite <- (target_key_modifier s key Et). exact Em.
  - unfold _on_key_release.
    destruct (_is_modifier_key key); simpl; auto.
    destruct (_is_target_key s key); simpl; auto.
    destruct (_key_pressed s) eqn:Ek; simpl; [|intro; congruence].
    destruct (Qltb _ _); simpl; discriminate.
Qed.

Lemma run_latch_ok (evs : list raw_event) :
  forall s, latch_ok s -> latch_ok (fst (run s evs)).
Proof.
  induction evs as [|ev r IH]; intros s I; simpl; auto.
  pose proof (handle_latch_ok s ev I) as I1.
  destruct (handle s ev) as [[s1 ret] calls]. simpl in I1.
  specialize (IH s1 I1). destruct (run s1 r) as [s2 log]. exact IH.
Qed.

Lemma start_latch_ok (s : HotkeyListener) : latch_ok (start s).
Proof. unfold latch_ok, start. simpl. discriminate. Qed.

(** *** Release of the hot key *)

(** C1, as stated, fails on [HotkeyListener._on_key_release]: the backslash
    listener with the default 100 ms minimum is latched by a down event read
    at clock 10 s; the up event read at 10.05 s unlatches and is suppressed,
    and no release callback is invoked although one is registered. *)
Lemma release_suppressed_below_minimum :
  let s1 := fst (run (start backslash_listener) [Down backslash_key 10]) in
  _key_pressed s1 = true /\
  _is_target_key s1 backslash_key = true /\
  on_release_callback s1 = true /\
  _on_key_release s1 backslash_key (1005 # 100)
  = (with_press s1 false None, false, []).
Proof. vm_compute. repeat split. Qed.

(** C1, amended: in every state the pynput listener reaches from [start],
    an up event of the target key while latched unlatches, clears the start
    time and is suppressed; the release callback is invoked exactly when one
    is registered and the elapsed press duration is at least
    [min_press_duration]. *)
Theorem release_fires_unless_below_minimum
  (s : HotkeyListener) (evs : list raw_event) (key : raw_key) (now : Q) :
  _key_pressed (fst (run (start s) evs)) = true ->
  _is_target_key (fst (run (start s) evs)) key = true ->
  _on_key_release (fst (run (start s) evs)) key now
  = (with_press (fst (run (start s) evs)) false None, false,
     if Qltb (press_duration (fst (run (start s) evs)) now)
             (min_press_duration (fst (run (start s) evs)))
     then []
     else if on_release_callback (fst (run (start s) evs)) then [OnRelease] else []) /\
  (In OnRelease (snd (_on_key_release (fst (run (start s) evs)) key now)) <->
   on_release_callback (fst (run (start s) evs)) = true /\
   (min_press_duration (fst (run (start s) evs))
    <= press_duration (fst (run (start s) evs)) now)%Q).
Proof.
  pose proof (run_latch_ok evs (start s) (start_latch_ok s)) as I.
  remember (fst (run (start s) evs)) as s1 eqn:E. clear E.
  intros Hp Ht. unfold _on_key_release.
  rewrite (target_key_modifier s1 key Ht), (I Hp), Ht, Hp. simpl.
  unfold _trigger_callbacks. simpl.
  destruct (Qltb (press_duration s1 now) (min_press_duration s1)) eqn:L; simpl.
  - split; [reflexivity|]. split; [intros []|].
    intros [_ G]. apply Qltb_ge in G. congruence.
  - apply Qltb_ge in L.
    destruct (on_release_callback s1); simpl; (split; [reflexivity|]).
    + split; auto.
    + split; [intros [] | intros [H _]; discriminate].
Qed.

Lemma release_fires_unless_below_minimum_witness :
  _on_key_release (fst (run (start backslash_listener) [Down backslash_key 10]))
                  backslash_key 11
  = (with_press (fst (run (start backslash_listener) [Down backslash_key 10]))
                false None, false, [OnRelease]).
Proof.
  exact (proj1 (release_fires_unless_below_minimum backslash_listener
                  [Down backslash_key 10] backslash_key 11 eq_refl eq_refl)).
Defined.

(** *** Press of the hot key *)

(** C8 at the documented hot key ["ctrl+alt_r"]: with ctrl held, down events
    of the target key alt_r take the modifier branch of [_on_key_press];
    the key is never latched, every event is passed through, and neither
    the press callback nor, on the following up event, the release callback
    is invoked. *)
Theorem modifier_target_press_never_fires :
  init "ctrl+alt_r" true true 100 = inr ctrl_alt_r_listener /\
  run (start ctrl_alt_r_listener)
      [Down (KeyEnum ctrl) 10; Down (KeyEnum alt_r) 11; Down (KeyEnum alt_r) 12;
       Up (KeyEnum alt_r) 13; Up (KeyEnum ctrl) 14]
  = (ctrl_alt_r_listener,
     [(true, []); (true, []); (true, []); (true, []); (true, [])]).
Proof. split; reflexivity. Qed.

Lemma handle_unlatched_modifier_target (s : HotkeyListener) (ev : raw_event) :
  target_is_modifier (_target_key s) = true ->
  _key_pressed s = false ->
  _key_pressed (fst (fst (handle s ev))) = false /\
  snd (handle s ev) = [].
Proof.
  intros Hm Hk.
  destruct ev as [key now|key now]; simpl;
    [unfold _on_key_press | unfold _on_key_release];
    destruct (_is_modifier_key key) eqn:Em; simpl; auto;
    destruct (_is_target_key s key) eqn:Et; simpl; auto;
    rewrite (target_key_modifier s key Et) in Em; congruence.
Qed.

(** More generally, a listener whose target key is a modifier key never
    invokes a callback, whatever events arrive. *)
Lemma modifier_target_is_dead (evs : list raw_event) :
  forall s, target_is_modifier (_target_key s) = true ->
            _key_pressed s = false ->
            callbacks_of (snd (run s evs)) = [].
Proof.
  induction evs as [|ev r IH]; intros s Hm Hk; simpl; auto.
  destruct (handle_unlatched_modifier_target s ev Hm Hk) as [K C].
  pose proof (handle_target s ev) as T.
  destruct (handle s ev) as [[s1 ret] calls]. simpl in *.
  assert (Hm1 : target_is_modifier (_target_key s1) = true) by (rewrite T; exact Hm).
  specialize (IH s1 Hm1 K). destruct (run s1 r) as [s2 log].
  unfold callbacks_of in *. simpl in *. rewrite C, IH. reflexivity.
Qed.

Lemma repeat_down_latched (s : HotkeyListener) (key : raw_key) (ts : list Q) :
  _key_pressed s = true ->
  _is_target_key s key = true ->
  _is_modifier_key key = false ->
  _are_modifiers_pressed s = true ->
  run s (map (Down key) ts) = (s, map (fun _ => (false, [])) ts).
Proof.
  intros Hk Ht Hm Ha.
  induction ts as [|t r IH]; simpl; auto.
  unfold _on_key_press. rewrite Hm, Ht, Ha, Hk. simpl. rewrite IH. reflexivity.
Qed.

(** For a target key that is not a modifier key the latch works as C8
    says: of consecutive down events with the modifiers held, the first
    invokes the press callback before returning, all are suppressed, and the
    repeats invoke nothing. *)
Lemma repeat_down_fires_once (s : HotkeyListener) (key : raw_key) (t0 : Q) (ts : list Q) :
  _key_pressed s = false ->
  _is_target_key s key = true ->
  _is_modifier_key key = false ->
  _are_modifiers_pressed s = true ->
  run s (map (Down key) (t0 :: ts))
  = (with_press s true (Some t0),
     (false, if on_press_callback s then [OnPress] else [])
       :: map (fun _ => (false, [])) ts).
Proof.
  intros Hk Ht Hm Ha. simpl.
  unfold _on_key_press at 1. rewrite Hm, Ht, Ha, Hk. simpl.
  rewrite (repeat_down_latched (with_press s true (Some t0)) key ts); auto.
Qed.

(** The evdev listener, by contrast, invokes the release callback on every
    release of the latched target key, whatever the duration. *)
Lemma evdev_release_always_fires (s : Evdev.EvdevHotkeyListener) (now : Q) :
  Evdev._hotkey_pressed s = true ->
  snd (Evdev._handle_key_event s (Evdev._target_key s) 0 now)
  = (if Evdev.on_release_callback s then [OnRelease] else []) /\
  Evdev._hotkey_pressed (fst (Evdev._handle_key_event s (Evdev._target_key s) 0 now))
  = false.
Proof.
  intro H. unfold Evdev._handle_key_event. simpl.
  rewrite Z.eqb_refl, H. simpl. split; reflexivity.
Qed.

End HotkeyFacts.

(** ** Unfolding the effect monad *)

Ltac munfold :=
  unfold bind, try_except, try_finally, when, extern, emit, modify, get, ret,
         raise, state_of, outcome_of, calls_of.

(** Case analysis on a [match] or [if] whose scrutinee contains no other. *)
Ltac break_inner :=
  match goal with
  | |- context [match ?x with _ => _ end] =>
      lazymatch x with
      | context [match _ with _ => _ end] => fail
      | _ => destruct x eqn:?
      end
  end.

(** Replace a sub-computation by what a specification lemma says of its
    final state and outcome. *)
Ltac use_spec H :=
  match type of H with
  | state_of ?c = _ /\ outcome_of ?c = _ =>
      let S1 := fresh "S" in
      let O1 := fresh "O" in
      let s1 := fresh "s" in
      let t1 := fresh "t" in
      let r1 := fresh "r" in
      destruct H as [S1 O1];
      destruct c as [[s1 t1] r1];
      unfold state_of, outcome_of in S1, O1; simpl in S1, O1;
      subst s1 r1; simpl
  end.

(** ** Rules for the effect monad *)
Section Rules.
Context {S : Type}.
Variable R : S -> S -> Prop.
Variable Q : call -> Prop.
Hypothesis R_refl : forall s, R s s.
Hypothesis R_trans : forall a b c, R a b -> R b c -> R a c.

Lemma keeps_ret {A} (a : A) : keeps R Q (ret a).
Proof. intro s. split; [apply R_refl | constructor]. Qed.

Lemma keeps_raise {A} (e : exn) : keeps R Q (@raise S A e).
Proof. intro s. split; [apply R_refl | constructor]. Qed.

Lemma keeps_get : keeps R Q (@get S).
Proof. intro s. split; [apply R_refl | constructor]. Qed.

Lemma keeps_emit (c : call) : Q c -> keeps R Q (@emit S c).
Proof. intros H s. split; [apply R_refl | repeat constructor; exact H]. Qed.

Lemma keeps_extern {A} (c : call) (o : exn + A) : Q c -> keeps R Q (@extern S A c o).
Proof. intros H s. split; [apply R_refl | repeat constructor; exact H]. Qed.

Lemma keeps_modify (f : S -> S) : (forall s, R s (f s)) -> keeps R Q (modify f).
Proof. intros H s. split; [apply H | constructor]. Qed.

Lemma keeps_bind {A B} (m : M S A) (k : A -> M S B) :
  keeps R Q m -> (forall a, keeps R Q (k a)) -> keeps R Q (bind m k).
Proof.
  intros Hm Hk s. specialize (Hm s). unfold bind, state_of, calls_of in *.
  destruct (m s) as [[s1 t1] [e|a]]; simpl in *; auto.
  specialize (Hk a s1). destruct (k a s1) as [[s2 t2] r2]. simpl in *.
  destruct Hm as [R1 Q1], Hk as [R2 Q2]. split.
  - eapply R_trans; eauto.
  - apply Forall_app; auto.
Qed.

Lemma keeps_try_except {A} (m : M S A) (h : exn -> M S A) :
  keeps R Q m -> (forall e, keeps R Q (h e)) -> keeps R Q (try_except m h).
Proof.
  intros Hm Hh s. specialize (Hm s). unfold try_except, state_of, calls_of in *.
  destruct (m s) as [[s1 t1] [e|a]]; simpl in *; auto.
  specialize (Hh e s1). destruct (h e s1) as [[s2 t2] r2]. simpl in *.
  destruct Hm as [R1 Q1], Hh as [R2 Q2]. split.
  - eapply R_trans; eauto.
  - apply Forall_app; auto.
Qed.

Lemma keeps_try_finally {A} (m : M S A) (f : M S unit) :
  keeps R Q m -> keeps R Q f -> keeps R Q (try_finally m f).
Proof.
  intros Hm Hf s. specialize (Hm s). unfold try_finally, state_of, calls_of in *.
  destruct (m s) as [[s1 t1] r1]; simpl in *.
  specialize (Hf s1). destruct (f s1) as [[s2 t2] r2]. simpl in *.
  destruct Hm as [R1 Q1], Hf as [R2 Q2].
  destruct r2; simpl; (split; [eapply R_trans; eauto | apply Forall_app; auto]).
Qed.

Lemma keeps_when (b : bool) (m : M S unit) : keeps R Q m -> keeps R Q (when b m).
Proof. intro H. destruct b; simpl; [exact H | apply keeps_ret]. Qed.

Lemma returns_ret {A} (P : A -> Prop) (a : A) : P a -> returns P (@ret S A a).
Proof. intros H s a' E. unfold outcome_of, ret in E. simpl in E. congruence. Qed.

Lemma returns_raise {A} (P : A -> Prop) (e : exn) : returns P (@raise S A e).
Proof. intros s a E. discriminate. Qed.

Lemma returns_bind {A B} (P : B -> Prop) (m : M S A) (k : A -> M S B) :
  (forall a, returns P (k a)) -> returns P (bind m k).
Proof.
  intros Hk s b. unfold bind, outcome_of.
  destruct (m s) as [[s1 t1] [e|a]]; simpl; [discriminate|].
  specialize (Hk a s1 b). unfold outcome_of in Hk.
  destruct (k a s1) as [[s2 t2] r2]. exact Hk.
Qed.

Lemma returns_try_except {A} (P : A -> Prop) (m : M S A) (h : exn -> M S A) :
  returns P m -> (forall e, returns P (h e)) -> returns P (try_except m h).
Proof.
  intros Hm Hh s a. specialize (Hm s a). unfold try_except, outcome_of in *.
  destruct (m s) as [[s1 t1] [e|a1]]; simpl in *; auto.
  specialize (Hh e s1 a). unfold outcome_of in Hh.
  destruct (h e s1) as [[s2 t2] r2]. exact Hh.
Qed.
End Rules.

(** Syntax-directed use of the rules; [tac] settles the side conditions on
    single calls and single updates. *)
Ltac keeps_with tac :=
  repeat first
    [ apply keeps_ret; solve [tac]
    | apply keeps_raise; solve [tac]
    | apply keeps_get; solve [tac]
    | apply keeps_when; [solve [tac] | ]
    | apply keeps_bind; [solve [tac] | | intro]
    | apply keeps_try_except; [solve [tac] | | intro]
    | apply keeps_try_finally; [solve [tac] | | ]
    | apply keeps_emit; [solve [tac] | solve [tac]]
    | apply keeps_extern; [solve [tac] | solve [tac]]
    | apply keeps_modify; solve [tac]
    | match goal with
      | |- keeps _ _ (match ?x with _ => _ end) => destruct x
      end ].

(** ** Audio capture *)
Module AudioFacts.
Import Audio AudioDefs.

(** *** The ring buffer *)

Lemma keep_last_length {A} (n : nat) (l : list A) :
  (List.length (keep_last n l) <= n)%nat.
Proof. unfold keep_last. rewrite length_skipn. lia. Qed.

Lemma keep_last_all {A} (n : nat) (l : list A) :
  (List.length l <= n)%nat -> keep_last n l = l.
Proof.
  intro H. unfold keep_last.
  replace (List.length l - n)%nat with 0%nat by lia. reflexivity.
Qed.

Lemma keep_last_snoc {A} (n : nat) (l : list A) (x : A) :
  keep_last n (keep_last n l ++ [x]) = keep_last n (l ++ [x]).
Proof.
  unfold keep_last.
  rewrite length_app, length_skipn, length_app. simpl.
  set (k := (List.length l - n)%nat).
  assert (Hk : (k <= List.length l)%nat) by (unfold k; lia).
  replace (skipn k l ++ [x]) with (skipn k (l ++ [x])).
  - rewrite skipn_skipn. f_equal. unfold k. lia.
  - rewrite skipn_app. replace (k - List.length l)%nat with 0%nat by lia.
    reflexivity.
Qed.

Lemma deque_append_bounded {A} (x : A) (d : deque A) (n : nat) :
  maxlen d = Some n ->
  (List.length (items d) <= n)%nat ->
  deque_append x d = mkDeque (keep_last n (items d ++ [x])) (Some n).
Proof.
  intros M L. unfold deque_append. rewrite M. f_equal.
  unfold keep_last. rewrite length_app. simpl.
  destruct (Nat.ltb_spec n (List.length (items d) + 1)) as [H|H].
  - replace (List.length (items d) + 1 - n)%nat with 1%nat by lia.
    destruct (items d ++ [x]); reflexivity.
  - replace (List.length (items d) + 1 - n)%nat with 0%nat by lia. reflexivity.
Qed.


Lemma recording_loop_buffer (w : world) (n : nat) (reads : list (exn + bytes)) :
  forall (s : AudioCapture) (hist : list bytes),
    _audio_buffer s = mkDeque (keep_last n hist) (Some n) ->
    _audio_buffer (state_of (_recording_loop w reads s))
    = mkDeque (keep_last n (hist ++ chunks_read reads)) (Some n).
Proof.
  induction reads as [|[e|b] r IH]; intros s hist B; simpl.
  - unfold state_of; simpl. now rewrite app_nil_r.
  - unfold state_of; simpl. now rewrite app_nil_r.
  - munfold. simpl.
    set (s1 := set_audio_buffer (deque_append b (_audio_buffer s))
                 (set_current_audio_level (calculated_level w b) s)).
    assert (B1 : _audio_buffer s1 = mkDeque (keep_last n (hist ++ [b])) (Some n)).
    { unfold s1. simpl. rewrite B.
      rewrite (deque_append_bounded b (mkDeque (keep_last n hist) (Some n)) n
                 eq_refl (keep_last_length n hist)).
      simpl. now rewrite keep_last_snoc. }
    specialize (IH s1 (hist ++ [b]) B1).
    rewrite <- app_assoc in IH. simpl in IH. unfold state_of in IH.
    destruct (_chunk_callback s); simpl;
      destruct (_recording_loop w r s1) as [[s2 t2] r2]; simpl in *; exact IH.
Qed.


(** *** Rounding to double precision keeps the sign *)










(** *** Releasing the device *)

Lemma set_stream_None_id (s : AudioCapture) : _stream s = None -> set_stream None s = s.
Proof. destruct s; simpl; intros ->; reflexivity. Qed.

Lemma close_stream_spec (w : world) (s : AudioCapture) :
  state_of (_close_stream w s) = set_stream None s /\
  outcome_of (_close_stream w s) = inr tt.
Proof.
  unfold _close_stream. munfold.
  destruct (_stream s) eqn:E; simpl.
  - destruct (is_active_result w) as [e|[|]]; simpl;
      try destruct (stop_stream_result w) as [e1|[]]; simpl;
      destruct (close_result w) as [e2|[]]; simpl; auto.
  - split; auto. symmetry. apply set_stream_None_id; auto.
Qed.

Lemma stop_recording_spec (w : world) (s : AudioCapture) :
  _is_recording s = true ->
  state_of (stop_recording w s) = stopped s /\
  exists data, outcome_of (stop_recording w s) = inr data.
Proof.
  intro R. unfold stop_recording. munfold. rewrite R. simpl.
  destruct (_recording_thread s) eqn:T; simpl.
  all: match goal with |- context [if ?c then _ else _] => destruct c eqn:C end; simpl.
  all: unfold _apply_noise_reduction_filter; munfold; simpl.
  all: try (destruct (NOISEREDUCE_AVAILABLE _); simpl).
  all: try (destruct (reduce_noise_result _ _) as [e|d]; simpl).
  all: match goal with |- context [_close_stream ?v ?x] =>
         pose proof (close_stream_spec v x) as CS; use_spec CS
       end.
  all: split; [ destruct s; simpl in *; subst; reflexivity | eexists; reflexivity ].
Qed.

Lemma release_device_spec (w : world) (s : AudioCapture) :
  state_of (release_device w s) = released s /\
  outcome_of (release_device w s) = inr tt.
Proof.
  unfold release_device. munfold.
  destruct (_is_recording s) eqn:R; simpl.
  - destruct (stop_recording_spec w s R) as [SS [data SO]].
    destruct (stop_recording w s) as [[s1 t1] r1].
    unfold state_of, outcome_of in SS, SO. simpl in SS, SO. subst s1 r1. simpl.
    pose proof (close_stream_spec w (stopped s)) as CS. use_spec CS.
    destruct (_pyaudio s) eqn:P; simpl;
      try destruct (terminate_result w) as [e|[]]; simpl;
      (split; [destruct s; simpl in *; subst; reflexivity | reflexivity]).
  - pose proof (close_stream_spec w s) as CS. use_spec CS.
    destruct (_pyaudio s) eqn:P; simpl;
      try destruct (terminate_result w) as [e|[]]; simpl;
      (split; [destruct s; simpl in *; subst; reflexivity | reflexivity]).
Qed.



(** *** Calls and failures of the capture methods *)

Ltac audio_side := first [exact I | intros; exact I].

Lemma stop_recording_calls (w : world) :
  keeps (fun _ _ => True) audio_call (stop_recording w).
Proof.
  unfold stop_recording, _close_stream, _apply_noise_reduction_filter.
  keeps_with audio_side.
Qed.

Lemma release_device_calls (w : world) :
  keeps (fun _ _ => True) audio_call (release_device w).
Proof.
  unfold release_device, stop_recording, _close_stream, _apply_noise_reduction_filter.
  keeps_with audio_side.
Qed.

Lemma start_recording_calls (w : world) (cb : bool) :
  keeps (fun _ _ => True) audio_call (start_recording w cb).
Proof.
  unfold start_recording, _initialize_pyaudio, _open_stream.
  keeps_with audio_side.
Qed.

(** A failing [start_recording], entered with no stream open and no
    recording in progress, fails in one of two places: before the stream is
    open, with one of the three device errors, leaving no stream open and
    the object not recording; or in [Thread.start()], with what that raises,
    leaving the stream open and the object marked as recording. *)
Lemma start_recording_failure_cases
  (w : world) (cb : bool) (s : AudioCapture) (e : exn) :
  _stream s = None ->
  _is_recording s = false ->
  outcome_of (start_recording w cb s) = inl e ->
  (In (cls e) [PermissionDeniedError; DeviceBusyError; AudioDeviceError] /\
   _stream (state_of (start_recording w cb s)) = None /\
   _is_recording (state_of (start_recording w cb s)) = false) \/
  (thread_start_result w = inl e /\
   _stream (state_of (start_recording w cb s)) = Some StreamHandle /\
   _is_recording (state_of (start_recording w cb s)) = true).
Proof.
  intros St Rc. unfold start_recording, _initialize_pyaudio, _open_stream.
  munfold. rewrite Rc. simpl.
  destruct (_pyaudio s) eqn:P; simpl; rewrite ?St; simpl; rewrite ?P; simpl.
  all: repeat (break_inner; simpl; rewrite ?St; simpl).
  all: try discriminate.
  all: intro H; inversion H; subst; simpl;
    first [ left; repeat split; simpl; rewrite ?St; auto; tauto
          | right; repeat split; congruence ].
Qed.

(** When the thread starts, a failing [start_recording], entered with no
    stream open, leaves no stream open and the object not recording. *)
Lemma start_recording_failure (w : world) (cb : bool) (s : AudioCapture) (e : exn) :
  thread_start_result w = inr tt ->
  _stream s = None ->
  _is_recording s = false ->
  outcome_of (start_recording w cb s) = inl e ->
  _stream (state_of (start_recording w cb s)) = None /\
  _is_recording (state_of (start_recording w cb s)) = false.
Proof.
  intros Th St Rc O.
  destruct (start_recording_failure_cases w cb s e St Rc O) as [(_ & A & B)|(C & _)].
  - split; assumption.
  - congruence.
Qed.

Example start_recording_device_busy :
  exists ac : AudioCapture,
    init 16000 1 1 60 = inr ac /\
    outcome_of (start_recording device_busy true ac)
    = inl (Raise DeviceBusyError "Audio device is busy: [Errno -9985] Device busy") /\
    _stream (state_of (start_recording device_busy true ac)) = None /\
    _pyaudio (state_of (start_recording device_busy true ac)) = Some PyAudioHandle.
Proof. eexists. split; [vm_compute; reflexivity|]. repeat split. Qed.

End AudioFacts.

(** ** Speech recognition *)
Module SpeechFacts.
Import Speech SpeechDefs.

Lemma same_streaming_refl (s : SpeechRecognizer) : same_streaming s s.
Proof. split; reflexivity. Qed.

Lemma same_streaming_trans (a b c : SpeechRecognizer) :
  same_streaming a b -> same_streaming b c -> same_streaming a c.
Proof. unfold same_streaming. intros [H1 H2] [H3 H4]. split; congruence. Qed.

Ltac streaming_side :=
  first [ exact same_streaming_refl
        | exact same_streaming_trans
        | exact I
        | intro; split; reflexivity ].

Lemma schedule_unload_keeps :
  keeps same_streaming not_callback _schedule_model_unload.
Proof. unfold _schedule_model_unload. keeps_with streaming_side. Qed.

Lemma ensure_model_loaded_keeps (w : world) :
  keeps same_streaming not_callback (_ensure_model_loaded w).
Proof.
  unfold _ensure_model_loaded, _load_model. keeps_with streaming_side.
Qed.

Lemma transcribe_keeps (w : world) (audio_data : bytes) :
  keeps same_streaming not_callback (transcribe w audio_data).
Proof.
  unfold transcribe, _detect_language, call_model, lift_result.
  keeps_with ltac:(first [ streaming_side
                         | apply ensure_model_loaded_keeps
                         | apply schedule_unload_keeps ]).
Qed.

(** *** Failure to load the model *)

(** C7, as stated, fails: when the model cannot be constructed,
    [transcribe] raises an exception of class [TranscriptionError], not
    [ModelLoadError]. *)
Lemma transcribe_raises_generic_error :
  WhisperModel_result no_model = inl (Raise OSError "model file not found") /\
  outcome_of (transcribe no_model [] base_recognizer)
  = inl (Raise TranscriptionError
           "Transcription failed: Failed to load model 'base': model file not found") /\
  TranscriptionError <> ModelLoadError.
Proof. repeat split. discriminate. Qed.

(** C7, amended: whenever the model is not loaded and its construction
    fails, [_ensure_model_loaded] raises [ModelLoadError], and [transcribe]
    raises the generic [TranscriptionError] whose message wraps that of the
    [ModelLoadError]. *)
Theorem transcribe_wraps_model_load_error
  (w : world) (s : SpeechRecognizer) (audio_data : bytes) (e : exn) :
  _model_loaded s = false ->
  WhisperModel_result w = inl e ->
  outcome_of (_ensure_model_loaded w s)
  = inl (Raise ModelLoadError
           ("Failed to load model '" ++ model_name s ++ "': " ++ msg e)%string) /\
  outcome_of (transcribe w audio_data s)
  = inl (Raise TranscriptionError
           ("Transcription failed: " ++
            ("Failed to load model '" ++ model_name s ++ "': " ++ msg e))%string).
Proof.
  intros L W.
  unfold transcribe, _ensure_model_loaded, _load_model. munfold.
  rewrite L. simpl. rewrite L. simpl. rewrite W.
  destruct (_unload_timer s); simpl; split; reflexivity.
Qed.

Lemma transcribe_wraps_model_load_error_witness :
  outcome_of (transcribe no_model [] base_recognizer)
  = inl (Raise TranscriptionError
           "Transcription failed: Failed to load model 'base': model file not found").
Proof.
  exact (proj2 (transcribe_wraps_model_load_error no_model base_recognizer []
                  (Raise OSError "model file not found") eq_refl eq_refl)).
Defined.

(** *** Confidence of the results *)

Lemma fold_left_segments (segs : list Segment) :
  forall acc : Q,
    fold_left (fun a g => a + avg_logprob g)%Q segs acc
    = fold_left (fun a g => a + seg_confidence g)%Q
        (map (fun g => mkSegment (w_text g) (w_start g) (w_end g) (avg_logprob g)) segs)
        acc.
Proof. induction segs as [|g r IH]; intro acc; simpl; auto. Qed.

Lemma transcribe_returns (w : world) (audio_data : bytes) :
  returns (fun r => confidence r = mean_confidence (segments r) /\ is_final r = true)
          (transcribe w audio_data).
Proof.
  unfold transcribe.
  apply returns_try_except; [|intro; apply returns_raise].
  repeat (apply returns_bind; intro).
  apply returns_ret. simpl. split; [|reflexivity].
  unfold mean_confidence. rewrite length_map, <- fold_left_segments. reflexivity.
Qed.






(** *** Finalizing a streaming transcription *)

(** C2, as stated, fails: while streaming with a callback registered,
    [finalize_transcription] with two bytes of audio returns a final result
    having called only the model, and without audio it makes no call at
    all; the streaming callback is not invoked in either case. *)
Lemma finalize_never_invokes_callback :
  _is_streaming streaming_recognizer = true /\
  _streaming_callback streaming_recognizer = true /\
  calls_of (finalize_transcription one_segment
              (Some [Init.Byte.x00; Init.Byte.x00]) streaming_recognizer)
  = [model_transcribe] /\
  (exists r : TranscriptionResult,
     outcome_of (finalize_transcription one_segment
                   (Some [Init.Byte.x00; Init.Byte.x00]) streaming_recognizer) = inr r /\
     text r = "hello" /\ is_final r = true) /\
  calls_of (finalize_transcription one_segment None streaming_recognizer) = [].
Proof.
  repeat split. eexists. repeat split.
Qed.

Lemma finalize_with_audio_keeps (w : world) (b : Init.Byte.byte) (rest : bytes) :
  keeps (fun _ _ => True) not_callback (finalize_transcription w (Some (b :: rest))).
Proof.
  unfold finalize_transcription, stop_streaming_transcription, _schedule_model_unload,
    transcribe, _detect_language, call_model, lift_result,
    _ensure_model_loaded, _load_model.
  keeps_with ltac:(first [exact I | intros; exact I]).
Qed.

(** C2, amended to the path with complete audio: called while streaming
    with a non-empty byte string, [finalize_transcription] never invokes the
    streaming callback; when it returns, the result is final and streaming
    has been stopped, the registered callback cleared. *)
Theorem finalize_with_audio_makes_no_callback
  (w : world) (s : SpeechRecognizer) (b : Init.Byte.byte) (rest : bytes) :
  _is_streaming s = true ->
  Forall not_callback (calls_of (finalize_transcription w (Some (b :: rest)) s)) /\
  (forall r : TranscriptionResult,
     outcome_of (finalize_transcription w (Some (b :: rest)) s) = inr r ->
     is_final r = true /\
     _is_streaming (state_of (finalize_transcription w (Some (b :: rest)) s)) = false /\
     _streaming_callback (state_of (finalize_transcription w (Some (b :: rest)) s))
     = false).
Proof.
  intro St. split; [apply finalize_with_audio_keeps|].
  intro r. unfold finalize_transcription. munfold. simpl.
  destruct (_sample_rate s); simpl; [|discriminate].
  destruct (transcribe_keeps w (b :: rest) s) as [[S1 S2] _].
  pose proof (transcribe_returns w (b :: rest) s) as TR.
  unfold state_of, outcome_of in S1, S2, TR.
  destruct (transcribe w (b :: rest) s) as [[s1 t1] [e|r1]]; simpl in *;
    [discriminate|].
  rewrite S1, St. simpl.
  unfold stop_streaming_transcription. munfold. rewrite S1, St. simpl.
  match goal with |- context [_schedule_model_unload ?x] =>
    destruct (schedule_unload_keeps x) as [[U1 U2] _];
    unfold state_of in U1, U2;
    destruct (_schedule_model_unload x) as [[s2 t2] [e|[]]]; simpl in *
  end; [discriminate|].
  intro E. injection E as <-. destruct (TR r1 eq_refl) as [_ F].
  repeat split; assumption.
Qed.

(** On the path without audio the final emission is unreachable: a callback
    is registered only while streaming, and streaming is stopped (which
    clears the callback) before the callback is tested. *)
Lemma final_callback_unreachable
  (w : world) (s : SpeechRecognizer) (audio_data : option bytes) :
  (_streaming_callback s = true -> _is_streaming s = true) ->
  Forall not_callback (calls_of (finalize_transcription w audio_data s)).
Proof.
  intro Inv. destruct audio_data as [[|b rest]|].
  2: apply finalize_with_audio_keeps.
  all: unfold finalize_transcription, stop_streaming_transcription,
         _schedule_model_unload; munfold; simpl;
       destruct (_is_streaming s) eqn:E; simpl; rewrite ?E; simpl;
       try destruct (Qle_bool (_unload_after_seconds s) 0); simpl;
       try destruct (_unload_timer s); simpl;
       try (destruct (_streaming_callback s); [specialize (Inv eq_refl); discriminate|]);
       simpl; repeat constructor.
Qed.

Lemma finalize_with_audio_makes_no_callback_witness :
  Forall not_callback
    (calls_of (finalize_transcription one_segment
                 (Some [Init.Byte.x00; Init.Byte.x00]) streaming_recognizer)) /\
  _is_streaming
    (state_of (finalize_transcription one_segment
                 (Some [Init.Byte.x00; Init.Byte.x00]) streaming_recognizer)) = false.
Proof.
  pose proof (finalize_with_audio_makes_no_callback one_segment streaming_recognizer
                Init.Byte.x00 [Init.Byte.x00] eq_refl) as [H1 H2].
  split; [exact H1|].
  exact (proj1 (proj2 (H2 _ eq_refl))).
Defined.

End SpeechFacts.

(** ** The orchestrator *)
Module DaemonFacts.
Import Daemon DaemonDefs.

Lemma audio_call_quiet (l : list call) :
  Forall AudioDefs.audio_call l -> Forall quiet_call l.
Proof. apply Forall_impl. intros [] H; simpl in *; auto. Qed.

Ltac abstract_release :=
  match goal with
  | |- context [Audio.release_device ?w ?a] =>
      let RS := fresh "RS" in
      let RC := fresh "RC" in
      pose proof (AudioFacts.release_device_spec w a) as RS;
      pose proof (proj2 (AudioFacts.release_device_calls w a)) as RC;
      unfold calls_of in RC;
      use_spec RS; simpl in RC; apply audio_call_quiet in RC
  end.

Ltac in_calls := repeat (rewrite ?in_app_iff; simpl); tauto.

(** *** Concrete sessions *)

Example init_default_capture : Audio.init 16000 1 1 60 = inr default_capture.
Proof. reflexivity. Qed.

Example recording_daemon_records :
  _is_recording recording_daemon = true /\
  audio_capture recording_daemon = Some recording_capture /\
  Audio._stream recording_capture = Some Audio.StreamHandle /\
  Audio._is_recording recording_capture = true.
Proof. repeat split. Qed.

(** *** Release of the hot key *)

(** C5: whatever the collaborators do while the release handler runs in a
    recording session, the handler does not raise, the recording flag ends
    [false], [release_device] has been called, and the capture object is
    left without stream and without PyAudio handle. *)
Theorem release_clears_flag_and_releases_device
  (w : world) (d : ZephyrDaemon) (ac : Audio.AudioCapture) :
  _is_recording d = true ->
  audio_capture d = Some ac ->
  outcome_of (_on_hotkey_release w d) = inr tt /\
  _is_recording (state_of (_on_hotkey_release w d)) = false /\
  In ac_release_device (calls_of (_on_hotkey_release w d)) /\
  device_released (state_of (_on_hotkey_release w d)).
Proof.
  intros Rc Ac.
  unfold _on_hotkey_release, release_body, _handle_error, on_audio, on_speech.
  munfold. simpl. rewrite Rc. simpl. rewrite ?Ac. simpl.
  repeat first [abstract_release | break_inner; simpl].
  all: unfold device_released; simpl; repeat split; in_calls.
Qed.

Lemma release_clears_flag_and_releases_device_witness :
  outcome_of (_on_hotkey_release (all_well working_microphone) recording_daemon)
  = inr tt /\
  _is_recording
    (state_of (_on_hotkey_release (all_well working_microphone) recording_daemon))
  = false /\
  In ac_release_device
     (calls_of (_on_hotkey_release (all_well working_microphone) recording_daemon)) /\
  device_released
    (state_of (_on_hotkey_release (all_well working_microphone) recording_daemon)).
Proof.
  exact (release_clears_flag_and_releases_device (all_well working_microphone)
           recording_daemon recording_capture eq_refl eq_refl).
Defined.

(** C10: when [stop_recording] returns the empty byte string, the release
    handler makes no call of [finalize_transcription] and no call of the
    streaming callback, and leaves the recognizer object exactly as it was
    (so still streaming, if it was); the recording flag is cleared,
    [release_device] is called and the capture object is left released. *)
Theorem empty_capture_skips_finalize
  (w : world) (d : ZephyrDaemon) (ac : Audio.AudioCapture) :
  _is_recording d = true ->
  audio_capture d = Some ac ->
  outcome_of (Audio.stop_recording (audio w) ac) = inr [] ->
  speech_recognizer (state_of (_on_hotkey_release w d)) = speech_recognizer d /\
  Forall quiet_call (calls_of (_on_hotkey_release w d)) /\
  _is_recording (state_of (_on_hotkey_release w d)) = false /\
  In ac_release_device (calls_of (_on_hotkey_release w d)) /\
  device_released (state_of (_on_hotkey_release w d)).
Proof.
  intros Rc Ac Em.
  pose proof (proj2 (AudioFacts.stop_recording_calls (audio w) ac)) as SC.
  apply audio_call_quiet in SC.
  unfold _on_hotkey_release, release_body, _handle_error, on_audio, on_speech.
  munfold. simpl. rewrite Rc. simpl. rewrite ?Ac. simpl.
  unfold outcome_of, calls_of in Em, SC.
  destruct (Audio.stop_recording (audio w) ac) as [[ac1 t1] r1].
  simpl in Em, SC. subst r1. simpl.
  repeat first [abstract_release | break_inner; simpl].
  all: unfold device_released; simpl; repeat split; try reflexivity;
    try in_calls.
  all: repeat (first [apply Forall_app; split | apply Forall_cons | apply Forall_nil]);
    simpl; auto.
Qed.

Lemma empty_capture_skips_finalize_witness :
  (exists sr : Speech.SpeechRecognizer,
     speech_recognizer
       (state_of (_on_hotkey_release (all_well working_microphone) recording_daemon))
     = Some sr /\
     Speech._is_streaming sr = true) /\
  Forall quiet_call
    (calls_of (_on_hotkey_release (all_well working_microphone) recording_daemon)) /\
  _is_recording
    (state_of (_on_hotkey_release (all_well working_microphone) recording_daemon))
  = false.
Proof.
  pose proof (empty_capture_skips_finalize (all_well working_microphone)
                recording_daemon recording_capture eq_refl eq_refl eq_refl)
    as [H1 [H2 [H3 _]]].
  split; [|split; assumption].
  eexists. split; [exact H1 | reflexivity].
Defined.

(** *** Press of the hot key *)

Lemma press_body_failure (w : world) (d : ZephyrDaemon) (e : exn) :
  Audio.thread_start_result (audio w) = inr tt ->
  audio_idle d ->
  outcome_of (press_body w d) = inl e ->
  audio_idle (state_of (press_body w d)) /\
  ui_overlay (state_of (press_body w d)) = ui_overlay d.
Proof.
  intro Th.
  unfold audio_idle, press_body, on_audio, on_speech. munfold. simpl.
  destruct (audio_capture d) as [ac|] eqn:Ac; intro Idle.
  - destruct Idle as [I1 I2].
    pose proof (fun e => AudioFacts.start_recording_failure (audio w) true ac e Th)
      as SF.
    unfold state_of, outcome_of in SF.
    destruct (Audio.start_recording (audio w) true ac) as [[ac1 t1] r1].
    simpl in SF.
    repeat (break_inner; simpl).
    all: try discriminate.
    all: intros _;
      repeat match goal with
             | H : Some _ = Some _ |- _ => injection H as H; subst
             end;
      (split; [first [split; assumption | eapply SF; eauto] | congruence]).
  - repeat (break_inner; simpl).
    all: first [ discriminate | intros _; split; [exact I | congruence] ].
Qed.

Lemma press_body_success (w : world) (d : ZephyrDaemon) :
  outcome_of (press_body w d) = inr tt ->
  _is_recording (state_of (press_body w d)) = true.
Proof.
  unfold press_body, on_audio, on_speech. munfold. simpl.
  repeat (break_inner; simpl).
  all: first [discriminate | reflexivity].
Qed.

(** On every path but one the press handler does what C6 says: when the
    daemon is idle (not recording, overlay not visible, no capture stream
    open), a step of the start-up sequence raises and [Thread.start()] is
    not what failed, the handler does not raise, passes the error to the
    overlay's [show_error] when there is an overlay, ends with the recording
    flag [false], and leaves the capture object with no stream open and not
    recording. *)
Lemma failed_start_reverts_to_idle (w : world) (d : ZephyrDaemon) (e : exn) :
  Audio.thread_start_result (audio w) = inr tt ->
  _is_recording d = false ->
  ui_overlay d && is_visible w = false ->
  audio_idle d ->
  outcome_of (press_body w d) = inl e ->
  outcome_of (_on_hotkey_press w d) = inr tt /\
  _is_recording (state_of (_on_hotkey_press w d)) = false /\
  (ui_overlay d = true ->
   In (ui_show_error ("Failed to start recording: " ++ msg e)%string)
      (calls_of (_on_hotkey_press w d))) /\
  audio_idle (state_of (_on_hotkey_press w d)).
Proof.
  intros Th Rc Vis Idle Fail.
  destruct (press_body_failure w d e Th Idle Fail) as [I1 U1].
  unfold _on_hotkey_press, _handle_error. munfold. simpl.
  rewrite Rc, Vis. simpl.
  unfold state_of, outcome_of in *.
  destruct (press_body w d) as [[d1 t1] r1]. simpl in *. subst r1. simpl.
  rewrite U1.
  destruct (ui_overlay d) eqn:U; simpl.
  - destruct (show_error_result w) as [e1|[]]; simpl; repeat split; auto;
      intros _; in_calls.
  - repeat split; auto. discriminate.
Qed.

(** C6 does not hold on the code: here the daemon is idle, the overlay, the
    recognizer, the input simulator and the microphone all work, and
    [Thread.start()], the last statement of [start_recording], raises.  The
    press handler shows the error and clears its own recording flag, but
    nothing closes the stream [start_recording] has opened: the capture
    object is left with its stream open and marked as recording.  (The
    [except] branch of the release handler does call [release_device]; that
    of the press handler does not.) *)
Theorem failed_thread_start_leaves_stream_open :
  _is_recording idle_daemon = false /\
  audio_idle idle_daemon /\
  outcome_of (press_body (all_well thread_exhausted) idle_daemon)
  = inl (Raise RuntimeError "can't start new thread") /\
  outcome_of (_on_hotkey_press (all_well thread_exhausted) idle_daemon) = inr tt /\
  In (ui_show_error "Failed to start recording: can't start new thread")
     (calls_of (_on_hotkey_press (all_well thread_exhausted) idle_daemon)) /\
  _is_recording (state_of (_on_hotkey_press (all_well thread_exhausted) idle_daemon))
  = false /\
  (exists ac : Audio.AudioCapture,
     audio_capture (state_of (_on_hotkey_press (all_well thread_exhausted) idle_daemon))
     = Some ac /\
     Audio._stream ac = Some Audio.StreamHandle /\
     Audio._pyaudio ac = Some Audio.PyAudioHandle /\
     Audio._is_recording ac = true) /\
  ~ audio_idle (state_of (_on_hotkey_press (all_well thread_exhausted) idle_daemon)).
Proof.
  split; [reflexivity|]. split; [split; reflexivity|].
  split; [reflexivity|]. split; [reflexivity|].
  split; [vm_compute; tauto|]. split; [reflexivity|].
  split.
  - eexists. split; [vm_compute; reflexivity|]. repeat split.
  - vm_compute. intros [H _]. discriminate.
Qed.

(** *** What the handlers leave of the capture object

    The two hot-key handlers are the only code of the daemon that opens or
    closes the capture stream (the capture thread itself writes neither
    [_stream] nor [_is_recording], see [recording_loop_keeps]). *)

Lemma recording_loop_keeps (w : Audio.world) (reads : list (exn + bytes)) :
  keeps (fun s s' => Audio._stream s' = Audio._stream s /\
                     Audio._is_recording s' = Audio._is_recording s)
        (fun _ => True) (Audio._recording_loop w reads).
Proof.
  induction reads as [|[e|b] r IH]; simpl.
  - apply keeps_ret. auto.
  - apply keeps_emit; auto.
  - keeps_with ltac:(first [ exact I
                           | intro; split; reflexivity
                           | intros ? ? ? [? ?] [? ?]; split; congruence ]).
    exact IH.
Qed.

Lemma release_without_capture (w : world) (d : ZephyrDaemon) :
  audio_capture d = None ->
  audio_capture (state_of (_on_hotkey_release w d)) = None.
Proof.
  intro Ac.
  unfold _on_hotkey_release, release_body, _handle_error, on_audio, on_speech.
  munfold. simpl. rewrite ?Ac. simpl.
  repeat (break_inner; simpl; rewrite ?Ac; simpl).
  all: first [assumption | reflexivity | congruence].
Qed.

Lemma press_failure_keeps_idle (w : world) (d : ZephyrDaemon) (e : exn) :
  Audio.thread_start_result (audio w) = inr tt ->
  _is_recording d = false ->
  ui_overlay d && is_visible w = false ->
  audio_idle d ->
  outcome_of (press_body w d) = inl e ->
  audio_idle (state_of (_on_hotkey_press w d)).
Proof.
  intros Th Rc Vis Idle Fail.
  exact (proj2 (proj2 (proj2 (failed_start_reverts_to_idle w d e Th Rc Vis Idle Fail)))).
Qed.

Lemma release_leaves_device_released
  (w : world) (d : ZephyrDaemon) (ac : Audio.AudioCapture) :
  _is_recording d = true ->
  audio_capture d = Some ac ->
  device_released (state_of (_on_hotkey_release w d)).
Proof.
  intros Rc Ac.
  unfold _on_hotkey_release, release_body, _handle_error, on_audio, on_speech.
  munfold. simpl. rewrite Rc. simpl. rewrite ?Ac. simpl.
  repeat first [abstract_release | break_inner; simpl].
  all: unfold device_released; simpl; repeat split.
Qed.

End DaemonFacts.

(** * Further properties *)

(** ** The pynput hotkey listener, further *)
Module HotkeyMore.
Import Hotkey HotkeyDefs HotkeyDefs2.

Lemma run_app (evs1 evs2 : list raw_event) :
  forall s,
    run s (evs1 ++ evs2)
    = (fst (run (fst (run s evs1)) evs2),
       snd (run s evs1) ++ snd (run (fst (run s evs1)) evs2)).
Proof.
  induction evs1 as [|ev r IH]; intro s; simpl.
  - destruct (run s evs2); reflexivity.
  - destruct (handle s ev) as [[s1 ret] calls].
    rewrite (IH s1). destruct (run s1 r) as [s2 log]. simpl.
    reflexivity.
Qed.

(** X1: for a target key that is not a modifier key, with the required
    modifiers held and both callbacks registered, a down event read at a
    clock value other than 0.0, any number of repeated down events and an up
    event at least [min_press_duration] later are all suppressed and invoke
    the press callback once, on the first down event, and the release
    callback once, on the up event; the listener ends unlatched.  (A start
    time of 0.0 is falsy in [_on_key_release], which then takes the
    duration to be 0.) *)
Theorem press_repeat_release_cycle
  (s : HotkeyListener) (key : raw_key) (t0 t1 : Q) (ts : list Q) :
  _key_pressed s = false ->
  _is_target_key s key = true ->
  _is_modifier_key key = false ->
  _are_modifiers_pressed s = true ->
  on_press_callback s = true ->
  on_release_callback s = true ->
  Qtruthy t0 = true ->
  (min_press_duration s <= t1 - t0)%Q ->
  run s (Down key t0 :: map (Down key) ts ++ [Up key t1])
  = (with_press s false None,
     (false, [OnPress]) :: map (fun _ => (false, [])) ts ++ [(false, [OnRelease])]).
Proof.
  intros Hk Ht Hm Ha Hp Hr Ht0 Hd.
  change (Down key t0 :: map (Down key) ts ++ [Up key t1])
    with ((Down key t0 :: map (Down key) ts) ++ [Up key t1]).
  rewrite run_app.
  change (Down key t0 :: map (Down key) ts) with (map (Down key) (t0 :: ts)).
  rewrite (HotkeyFacts.repeat_down_fires_once s key t0 ts Hk Ht Hm Ha).
  rewrite Hp. simpl.
  assert (Ht1 : _is_target_key (with_press s true (Some t0)) key = true) by exact Ht.
  unfold _on_key_release. rewrite Hm, Ht1. simpl.
  unfold press_duration. simpl. rewrite Ht0.
  apply Qltb_ge in Hd. rewrite Hd. unfold _trigger_callbacks. simpl. rewrite Hr.
  reflexivity.
Qed.

Lemma press_repeat_release_cycle_witness :
  run (start backslash_listener)
      (Down backslash_key 10 :: map (Down backslash_key) [101 # 10; 102 # 10]
         ++ [Up backslash_key 11])
  = (with_press (start backslash_listener) false None,
     (false, [OnPress]) :: map (fun _ => (false, [])) [101 # 10; 102 # 10]
       ++ [(false, [OnRelease])]).
Proof.
  apply (press_repeat_release_cycle (start backslash_listener) backslash_key 10 11
           [101 # 10; 102 # 10]); try reflexivity.
  vm_compute. discriminate.
Defined.

(** *** Modifier keys *)

Lemma handle_nodup (s : HotkeyListener) (ev : raw_event) :
  NoDup (_pressed_modifiers s) ->
  NoDup (_pressed_modifiers (fst (fst (handle s ev)))).
Proof.
  intro N. destruct ev as [key now|key now]; simpl;
    [unfold _on_key_press | unfold _on_key_release];
    repeat match goal with |- context [if ?b then _ else _] => destruct b end;
    simpl; auto.
  - apply set_add_nodup; exact N.
  - apply set_remove_nodup; exact N.
Qed.

Lemma run_nodup (evs : list raw_event) :
  forall s, NoDup (_pressed_modifiers s) ->
            NoDup (_pressed_modifiers (fst (run s evs))).
Proof.
  induction evs as [|ev r IH]; intros s N; simpl; auto.
  pose proof (handle_nodup s ev N) as N1.
  destruct (handle s ev) as [[s1 ret] calls]. simpl in N1.
  specialize (IH s1 N1). destruct (run s1 r) as [s2 log]. exact IH.
Qed.

(** X2: in every state the listener reaches from [start], an event of a
    modifier key is let through and invokes no callback, whatever the hot
    key is; a down event puts the key into the set of held modifiers, an up
    event takes it out, and neither changes the latch. *)
Theorem modifier_keys_tracked_not_consumed
  (s : HotkeyListener) (evs : list raw_event) (key : raw_key) (now : Q) :
  _is_modifier_key key = true ->
  (exists s2 : HotkeyListener,
     _on_key_press (fst (run (start s) evs)) key now = (s2, true, []) /\
     set_mem raw_key_eq_dec key (_pressed_modifiers s2) = true /\
     _key_pressed s2 = _key_pressed (fst (run (start s) evs))) /\
  (exists s3 : HotkeyListener,
     _on_key_release (fst (run (start s) evs)) key now = (s3, true, []) /\
     set_mem raw_key_eq_dec key (_pressed_modifiers s3) = false /\
     _key_pressed s3 = _key_pressed (fst (run (start s) evs))).
Proof.
  intro Hm.
  assert (N : NoDup (_pressed_modifiers (fst (run (start s) evs)))).
  { apply run_nodup. simpl. constructor. }
  remember (fst (run (start s) evs)) as s1 eqn:E. clear E.
  split.
  - unfold _on_key_press. rewrite Hm. eexists. split; [reflexivity|]. simpl.
    split; [|reflexivity].
    apply set_mem_correct2. apply set_add_intro2. reflexivity.
  - unfold _on_key_release. rewrite Hm. eexists. split; [reflexivity|]. simpl.
    split; [|reflexivity].
    apply set_mem_complete2. intro In1.
    exact (set_remove_2 raw_key_eq_dec N In1 eq_refl).
Qed.

Lemma modifier_keys_tracked_not_consumed_witness :
  exists s2 : HotkeyListener,
    _on_key_press (fst (run (start ctrl_alt_r_listener) [Down (KeyEnum shift) 1]))
                  (KeyEnum ctrl_l) 2 = (s2, true, []) /\
    set_mem raw_key_eq_dec (KeyEnum ctrl_l) (_pressed_modifiers s2) = true /\
    _key_pressed s2
    = _key_pressed (fst (run (start ctrl_alt_r_listener) [Down (KeyEnum shift) 1])).
Proof.
  exact (proj1 (modifier_keys_tracked_not_consumed ctrl_alt_r_listener
                  [Down (KeyEnum shift) 1] (KeyEnum ctrl_l) 2 eq_refl)).
Defined.

(** *** Pairing of the callbacks *)

Lemma handle_press_callback (s : HotkeyListener) (ev : raw_event) :
  on_press_callback (fst (fst (handle s ev))) = on_press_callback s.
Proof.
  destruct ev as [key now|key now]; simpl;
    [unfold _on_key_press | unfold _on_key_release];
    repeat match goal with |- context [if ?b then _ else _] => destruct b eqn:? end;
    simpl; congruence.
Qed.

Lemma count_fired_cons (f : fired) (ret : bool) (calls : list fired)
  (log : list (bool * list fired)) :
  count_fired f ((ret, calls) :: log)
  = (List.length (filter (fired_eqb f) calls) + count_fired f log)%nat.
Proof.
  unfold count_fired, callbacks_of. simpl. rewrite filter_app, length_app.
  reflexivity.
Qed.

Lemma handle_balance (s : HotkeyListener) (ev : raw_event) :
  on_press_callback s = true ->
  (List.length (filter (fired_eqb OnRelease) (snd (handle s ev)))
   + latched (fst (fst (handle s ev)))
   <= List.length (filter (fired_eqb OnPress) (snd (handle s ev))) + latched s)%nat.
Proof.
  intro Hp. unfold latched.
  destruct ev as [key now|key now]; simpl;
    [unfold _on_key_press | unfold _on_key_release; unfold _trigger_callbacks];
    rewrite ?Hp;
    repeat match goal with
           | |- context [if ?b then _ else _] => destruct b eqn:?; simpl
           end;
    simpl; try lia; try congruence.
Qed.

Lemma run_balance (evs : list raw_event) :
  forall s,
    on_press_callback s = true ->
    (count_fired OnRelease (snd (run s evs)) + latched (fst (run s evs))
     <= count_fired OnPress (snd (run s evs)) + latched s)%nat.
Proof.
  induction evs as [|ev r IH]; intros s Hp; simpl.
  - unfold count_fired. simpl. lia.
  - pose proof (handle_balance s ev Hp) as B.
    pose proof (handle_press_callback s ev) as P.
    destruct (handle s ev) as [[s1 ret] calls]. simpl in B, P.
    assert (Hp1 : on_press_callback s1 = true) by congruence.
    specialize (IH s1 Hp1). destruct (run s1 r) as [s2 log]. simpl in *.
    rewrite !count_fired_cons. lia.
Qed.

(** X3: with a press callback registered, after any events handled since
    [start] the release callback has been invoked at most as often as the
    press callback, and strictly less often while the key is latched: a
    release is never reported without a press before it. *)
Theorem release_never_outnumbers_press (s : HotkeyListener) (evs : list raw_event) :
  on_press_callback s = true ->
  (count_fired OnRelease (snd (run (start s) evs))
   + latched (fst (run (start s) evs))
   <= count_fired OnPress (snd (run (start s) evs)))%nat.
Proof.
  intro Hp.
  pose proof (run_balance evs (start s) Hp) as B.
  unfold latched at 2 in B. simpl in B. lia.
Qed.

Lemma release_never_outnumbers_press_witness :
  (count_fired OnRelease
     (snd (run (start backslash_listener)
             [Down backslash_key 10; Up backslash_key (1005 # 100);
              Down backslash_key 20]))
   + latched (fst (run (start backslash_listener)
                     [Down backslash_key 10; Up backslash_key (1005 # 100);
                      Down backslash_key 20]))
   <= count_fired OnPress
        (snd (run (start backslash_listener)
                [Down backslash_key 10; Up backslash_key (1005 # 100);
                 Down backslash_key 20])))%nat.
Proof.
  exact (release_never_outnumbers_press backslash_listener
           [Down backslash_key 10; Up backslash_key (1005 # 100);
            Down backslash_key 20] eq_refl).
Defined.

(** *** Parsing the hot key *)

Lemma lookup_shape (name : string) (v : mapped) :
  lookup name KEY_MAPPING = Some v ->
  (exists k : Key, v = Special k) \/ v = Chr "\".
Proof.
  unfold KEY_MAPPING. simpl.
  repeat match goal with
         | |- context [if ?b then _ else _] => destruct b
         end;
    intro H; inversion H; eauto.
Qed.

Lemma parse_modifiers_values (names : list string) :
  forall (acc r : set mapped),
    parse_modifiers names acc = inr r ->
    (forall m, set_In m acc -> mapped_value m) ->
    forall m, set_In m r -> mapped_value m.
Proof.
  induction names as [|n rest IH]; intros acc r P A m In1;
    cbn [parse_modifiers] in P.
  - inversion P. subst. auto.
  - destruct (lookup n KEY_MAPPING) as [mod_key|] eqn:L; [|discriminate].
    apply (IH _ _ P); auto.
    intros m' In2. apply set_add_elim in In2. destruct In2 as [->|In2]; auto.
    exists n. exact L.
Qed.

(** X4: whenever [_parse_hotkey] accepts a string, the target is a single
    key, either a member of [Key] or a one-character string, and every
    required modifier is a value of [KEY_MAPPING]. *)
Theorem parse_hotkey_target_is_one_key (hotkey : string) (t : mapped) (r : set mapped) :
  _parse_hotkey hotkey = inr (t, r) ->
  ((exists k : Key, t = Special k) \/
   (exists c : string, t = Chr c /\ String.length c = 1%nat)) /\
  (forall m : mapped, set_In m r -> mapped_value m).
Proof.
  unfold _parse_hotkey.
  destruct (mem_char "+" hotkey).
  - destruct (List.length _ <? 2)%nat; [discriminate|].
    destruct (init_last "" _) as [modifier_names target_key_name].
    destruct (lookup target_key_name KEY_MAPPING) as [k|] eqn:L.
    + destruct (parse_modifiers modifier_names (empty_set mapped)) as [e|req] eqn:P;
        [discriminate|].
      intro H. inversion H. subst. split.
      * destruct (lookup_shape _ _ L) as [[k' ->] | ->]; [left; eauto|].
        right. eexists. split; reflexivity.
      * apply (parse_modifiers_values _ _ _ P). intros m [].
    + destruct (String.length target_key_name =? 1)%nat eqn:Len; [|discriminate].
      destruct (parse_modifiers modifier_names (empty_set mapped)) as [e|req] eqn:P;
        [discriminate|].
      intro H. inversion H. subst. split.
      * right. eexists. split; [reflexivity|]. now apply Nat.eqb_eq.
      * apply (parse_modifiers_values _ _ _ P). intros m [].
  - destruct (lookup (lower hotkey) KEY_MAPPING) as [k|] eqn:L.
    + intro H. inversion H. subst. split; [|intros m []].
      destruct (lookup_shape _ _ L) as [[k' ->] | ->]; [left; eauto|].
      right. eexists. split; reflexivity.
    + destruct (String.length hotkey =? 1)%nat eqn:Len; [|discriminate].
      intro H. inversion H. subst. split; [|intros m []].
      right. eexists. split; [reflexivity|]. now apply Nat.eqb_eq.
Qed.

Lemma parse_hotkey_target_is_one_key_witness :
  ((exists k : Key, Special alt_r = Special k) \/
   (exists c : string, Special alt_r = Chr c /\ String.length c = 1%nat)) /\
  (forall m : mapped, set_In m [Special ctrl] -> mapped_value m).
Proof.
  exact (parse_hotkey_target_is_one_key "ctrl+alt_r" (Special alt_r) [Special ctrl]
           eq_refl).
Defined.

Lemma mem_char_trailing (c : ascii) (h : string) :
  mem_char c (h ++ String c "")%string = true.
Proof.
  induction h as [|d r IH]; simpl.
  - now rewrite Ascii.eqb_refl.
  - rewrite IH. apply orb_true_r.
Qed.

Lemma split_on_trailing (sep : ascii) (h : string) :
  exists front : list string,
    front <> [] /\
    split_on sep (h ++ String sep "")%string = front ++ [EmptyString].
Proof.
  induction h as [|c r [front [NE E]]]; simpl.
  - rewrite Ascii.eqb_refl. exists [EmptyString]. split; [discriminate | reflexivity].
  - rewrite E. destruct (Ascii.eqb c sep).
    + exists (EmptyString :: front). split; [discriminate | reflexivity].
    + destruct front as [|p ps]; [congruence|]. simpl.
      exists (String c p :: ps). split; [discriminate | reflexivity].
Qed.

Lemma init_last_snoc (d x : string) (l : list string) :
  init_last d (l ++ [x]) = (l, x).
Proof.
  induction l as [|y r IH]; simpl; [reflexivity|].
  rewrite IH. destruct (r ++ [x]) eqn:E; [|reflexivity].
  destruct r; discriminate.
Qed.

(** X5: a hot-key string that ends in ['+'] names no target key and is
    always rejected. *)
Theorem parse_hotkey_trailing_plus_rejected (h : string) :
  exists e : HotkeyError, _parse_hotkey (h ++ "+")%string = inl e.
Proof.
  unfold _parse_hotkey. rewrite mem_char_trailing.
  destruct (split_on_trailing "+" h) as [front [NE E]]. rewrite E.
  rewrite map_app.
  destruct (List.length _ <? 2)%nat; [eexists; reflexivity|].
  change (map (fun p : string => lower (strip p)) [EmptyString]) with [EmptyString].
  rewrite init_last_snoc.
  eexists. reflexivity.
Qed.

End HotkeyMore.

(** ** The life cycle of the pynput listener *)
Module LifecycleFacts.
Import Hotkey HotkeyLifecycle.

(** X6: [set_hotkey] with a string [_parse_hotkey] rejects leaves the
    listener not running (a running listener has been stopped and is not
    restarted), with the new string stored as [hotkey] but the old target
    key and modifiers kept, and reports the parse error.  With an accepted
    string it installs the parsed target and modifiers; a listener that was
    not running stays so and nothing is raised; one that was running is
    restarted unlatched, and when the restart fails its exception is raised
    and the listener is left stopped with the new hot key installed. *)
Theorem set_hotkey_outcomes (listener : exn + unit) (l : Listener) (new_hotkey : string) :
  (forall e : HotkeyError,
     _parse_hotkey new_hotkey = inl e ->
     snd (set_hotkey listener l new_hotkey) = Some (inl e) /\
     _is_running (fst (set_hotkey listener l new_hotkey)) = false /\
     hotkey (fst (set_hotkey listener l new_hotkey)) = new_hotkey /\
     _target_key (keys (fst (set_hotkey listener l new_hotkey))) = _target_key (keys l) /\
     _required_modifiers (keys (fst (set_hotkey listener l new_hotkey)))
     = _required_modifiers (keys l)) /\
  (forall (t : mapped) (r : set mapped),
     _parse_hotkey new_hotkey = inr (t, r) ->
     hotkey (fst (set_hotkey listener l new_hotkey)) = new_hotkey /\
     _target_key (keys (fst (set_hotkey listener l new_hotkey))) = t /\
     _required_modifiers (keys (fst (set_hotkey listener l new_hotkey))) = r /\
     (_is_running l = false ->
      snd (set_hotkey listener l new_hotkey) = None /\
      _is_running (fst (set_hotkey listener l new_hotkey)) = false) /\
     (_is_running l = true ->
      _key_pressed (keys (fst (set_hotkey listener l new_hotkey))) = false /\
      match listener with
      | inr _ => snd (set_hotkey listener l new_hotkey) = None /\
                 _is_running (fst (set_hotkey listener l new_hotkey)) = true
      | inl e => snd (set_hotkey listener l new_hotkey) = Some (inr e) /\
                 _is_running (fst (set_hotkey listener l new_hotkey)) = false
      end)).
Proof.
  split.
  - intros e P. unfold set_hotkey, stop. rewrite P.
    destruct (_is_running l) eqn:R; simpl; rewrite ?R; repeat split; reflexivity.
  - intros t r P. unfold set_hotkey, stop, start. rewrite P.
    destruct (_is_running l) eqn:R; simpl; rewrite ?R; simpl;
      destruct listener as [e|[]]; simpl;
      repeat split; try reflexivity; try discriminate.
Qed.

Lemma set_hotkey_outcomes_witness :
  snd (set_hotkey (inr tt) (mkLifecycle "backslash" true HotkeyDefs.backslash_listener)
         "ctrl+")
  = Some (inl (HotkeyRegistrationError "Invalid target key: ''")) /\
  _is_running
    (fst (set_hotkey (inr tt)
            (mkLifecycle "backslash" true HotkeyDefs.backslash_listener) "ctrl+"))
  = false.
Proof.
  pose proof (proj1 (set_hotkey_outcomes (inr tt)
                       (mkLifecycle "backslash" true HotkeyDefs.backslash_listener)
                       "ctrl+")
                    (HotkeyRegistrationError "Invalid target key: ''") eq_refl)
    as [H1 [H2 _]].
  split; assumption.
Defined.

End LifecycleFacts.

(** ** The evdev hotkey listener, further *)
Module EvdevFacts.
Import Evdev EvdevSetup.

Lemma listen_loop_app (EV_KEY : Z) (a b : list input_event) :
  forall s,
    _listen_loop EV_KEY s (a ++ b)
    = (fst (_listen_loop EV_KEY (fst (_listen_loop EV_KEY s a)) b),
       snd (_listen_loop EV_KEY s a)
       ++ snd (_listen_loop EV_KEY (fst (_listen_loop EV_KEY s a)) b)).
Proof.
  induction a as [|e r IH]; intro s; simpl.
  - destruct (_listen_loop EV_KEY s b); reflexivity.
  - destruct (ev_type e =? EV_KEY)%Z; [|apply IH].
    destruct (_handle_key_event s (ev_code e) (ev_value e) (ev_now e)) as [s1 c1].
    rewrite (IH s1). destruct (_listen_loop EV_KEY s1 r) as [s2 c2]. simpl.
    now rewrite app_assoc.
Qed.

(** Events that are not key events, and key events whose value is 2 (a key
    held down), change nothing and invoke nothing. *)
Lemma listen_loop_holds (EV_KEY : Z) (holds : list input_event) :
  Forall (fun e => ev_type e <> EV_KEY \/ ev_value e = 2%Z) holds ->
  forall s, _listen_loop EV_KEY s holds = (s, []).
Proof.
  induction 1 as [|e r He _ IH]; intro s; simpl; [reflexivity|].
  destruct (Z.eqb_spec (ev_type e) EV_KEY) as [Ty|Ty].
  - destruct He as [He|He]; [congruence|].
    unfold _handle_key_event. rewrite He. simpl. rewrite IH. reflexivity.
  - apply IH.
Qed.

(** X7: in the evdev listener, a press of the target key with the required
    modifiers down, followed by any number of hold events and events of
    other types, and then the release of the target key, invokes the press
    callback once and the release callback once, however short the time
    between press and release. *)
Theorem evdev_press_hold_release
  (EV_KEY : Z) (s : EvdevHotkeyListener) (t0 t1 : Q) (holds : list input_event) :
  _hotkey_pressed s = false ->
  issubset (_required_modifiers s)
           (set_add Z.eq_dec (_target_key s) (_pressed_keys s)) = true ->
  on_press_callback s = true ->
  on_release_callback s = true ->
  Forall (fun e => ev_type e <> EV_KEY \/ ev_value e = 2%Z) holds ->
  snd (_listen_loop EV_KEY s
         (mkEvent EV_KEY (_target_key s) 1 t0 :: holds
            ++ [mkEvent EV_KEY (_target_key s) 0 t1]))
  = [OnPress; OnRelease] /\
  _hotkey_pressed
    (fst (_listen_loop EV_KEY s
            (mkEvent EV_KEY (_target_key s) 1 t0 :: holds
               ++ [mkEvent EV_KEY (_target_key s) 0 t1])))
  = false.
Proof.
  intros Hl Hs Hp Hr Hh.
  change (mkEvent EV_KEY (_target_key s) 1 t0 :: holds
            ++ [mkEvent EV_KEY (_target_key s) 0 t1])
    with ([mkEvent EV_KEY (_target_key s) 1 t0]
            ++ (holds ++ [mkEvent EV_KEY (_target_key s) 0 t1])).
  rewrite listen_loop_app.
  assert (P : _listen_loop EV_KEY s [mkEvent EV_KEY (_target_key s) 1 t0]
              = (with_state s (set_add Z.eq_dec (_target_key s) (_pressed_keys s))
                            true (Some t0), [OnPress])).
  { simpl. rewrite Z.eqb_refl. unfold _handle_key_event. simpl.
    rewrite Z.eqb_refl, Hs, Hl, Hp. reflexivity. }
  rewrite P. simpl fst. simpl snd.
  rewrite listen_loop_app. rewrite (listen_loop_holds EV_KEY holds Hh). simpl.
  rewrite Z.eqb_refl. unfold _handle_key_event. simpl.
  rewrite Z.eqb_refl, Hr. simpl. split; reflexivity.
Qed.

Lemma evdev_press_hold_release_witness :
  snd (_listen_loop 1 (init 41 57 29 42 56 "ctrl+space" true true 100)
         [mkEvent 1 29 1 9; mkEvent 1 57 1 10; mkEvent 4 0 0 10; mkEvent 1 57 2 (101 # 10);
          mkEvent 1 57 0 (1001 # 100)])
  = [OnPress; OnRelease].
Proof.
  refine (proj1 (evdev_press_hold_release 1
                   (fst (_listen_loop 1 (init 41 57 29 42 56 "ctrl+space" true true 100)
                           [mkEvent 1 29 1 9]))
                   10 (1001 # 100) [mkEvent 4 0 0 10; mkEvent 1 57 2 (101 # 10)]
                   eq_refl eq_refl eq_refl eq_refl _)).
  constructor; [left; discriminate|].
  constructor; [right; reflexivity | constructor].
Defined.

Section Codes.
Variables KEY_GRAVE KEY_SPACE KEY_LEFTCTRL KEY_LEFTSHIFT KEY_LEFTALT : Z.

Let codes : list Z := [KEY_GRAVE; KEY_SPACE; KEY_LEFTCTRL; KEY_LEFTSHIFT; KEY_LEFTALT].
Let the_key_map := key_map KEY_GRAVE KEY_SPACE KEY_LEFTCTRL KEY_LEFTSHIFT KEY_LEFTALT.
Let parse := _parse_hotkey KEY_GRAVE KEY_SPACE KEY_LEFTCTRL KEY_LEFTSHIFT KEY_LEFTALT.

Lemma get_known (name : string) (c : Z) :
  get name the_key_map = Some c -> In c codes.
Proof.
  unfold the_key_map, key_map, codes. simpl.
  repeat match goal with
         | |- context [if ?b then _ else _] => destruct b
         end;
    intro H; inversion H; subst; simpl; tauto.
Qed.

Lemma known_modifiers_known (names : list string) :
  forall acc : set Z,
    (forall m, set_In m acc -> In m codes) ->
    forall m,
      set_In m (known_modifiers KEY_GRAVE KEY_SPACE KEY_LEFTCTRL KEY_LEFTSHIFT
                  KEY_LEFTALT names acc) ->
      In m codes.
Proof.
  induction names as [|n r IH]; intros acc A m; cbn [known_modifiers]; auto.
  fold the_key_map. destruct (get n the_key_map) as [c|] eqn:G; apply IH; auto.
  intros m' In1. apply set_add_elim in In1. destruct In1 as [->|In1]; auto.
  exact (get_known n c G).
Qed.

(** X8: the evdev listener's [_parse_hotkey] accepts every string: the
    target it returns is always one of the five codes of its key map and so
    is every modifier; a single key name the map does not hold selects
    [KEY_GRAVE] with no modifier. *)
Theorem evdev_parse_falls_back_to_grave (hotkey : string) :
  In (fst (parse hotkey)) codes /\
  (forall m : Z, set_In m (snd (parse hotkey)) -> In m codes) /\
  (mem_char "+" hotkey = false ->
   get (lower hotkey) the_key_map = None ->
   parse hotkey = (KEY_GRAVE, empty_set Z)).
Proof.
  unfold parse, _parse_hotkey. fold the_key_map.
  destruct (mem_char "+" hotkey).
  - destruct (Hotkey.init_last "" _) as [mods target]. cbn [fst snd].
    split; [|split].
    + destruct (get target the_key_map) as [c|] eqn:G;
        [exact (get_known _ _ G) | left; reflexivity].
    + apply known_modifiers_known. intros m [].
    + discriminate.
  - cbn [fst snd]. split; [|split].
    + destruct (get (lower hotkey) the_key_map) as [c|] eqn:G;
        [exact (get_known _ _ G) | left; reflexivity].
    + intros m [].
    + intros _ G. rewrite G. reflexivity.
Qed.

End Codes.
End EvdevFacts.

(** ** Audio capture, further *)
Module AudioMore.
Import Audio AudioDefs AudioDefs2.

(** *** Starting a recording *)

(** X9: [start_recording] entered with no stream object fails in one of
    three ways.  When a recording is in progress it raises [RuntimeError],
    makes no call and changes nothing.  Otherwise it fails before the stream
    is open with [PermissionDeniedError], [DeviceBusyError] or the generic
    [AudioDeviceError], leaving no stream and the object not recording; or it
    fails in [Thread.start()], with the exception that raises, not wrapped,
    leaving the stream open and the object marked as recording.  In
    particular, when PyAudio starts but no device has input channels, the
    [MicrophoneNotFoundError] raised inside [_initialize_pyaudio] is caught
    there and the caller gets the generic [AudioDeviceError]. *)
Theorem start_recording_error_classes
  (w : world) (cb : bool) (s : AudioCapture) (e : exn) :
  _stream s = None ->
  outcome_of (start_recording w cb s) = inl e ->
  ((_is_recording s = true /\
    e = Raise RuntimeError "Recording already in progress" /\
    calls_of (start_recording w cb s) = [] /\
    state_of (start_recording w cb s) = s) \/
   (_is_recording s = false /\
    In (cls e) [PermissionDeniedError; DeviceBusyError; AudioDeviceError] /\
    _stream (state_of (start_recording w cb s)) = None /\
    _is_recording (state_of (start_recording w cb s)) = false) \/
   (_is_recording s = false /\
    thread_start_result w = inl e /\
    _stream (state_of (start_recording w cb s)) = Some StreamHandle /\
    _is_recording (state_of (start_recording w cb s)) = true)) /\
  (_is_recording s = false ->
   _pyaudio s = None ->
   PyAudio_result w = inr tt ->
   (exists devs, maxInputChannels w = inr devs /\
                 existsb (fun c => (0 <? c)%Z) devs = false) ->
   e = Raise AudioDeviceError "Failed to initialize PyAudio: No microphone device found").
Proof.
  intros St O. split.
  - destruct (_is_recording s) eqn:Rc.
    + left. revert O. unfold start_recording. munfold. rewrite Rc. simpl.
      intro H. inversion H. repeat split.
    + right.
      destruct (AudioFacts.start_recording_failure_cases w cb s e St Rc O)
        as [(A & B & C)|(A & B & C)]; [left | right]; repeat split; assumption.
  - revert O. unfold start_recording, _initialize_pyaudio, _open_stream. munfold.
    intros O Rc P W1 [devs [D1 D2]]. revert O.
    rewrite Rc, P, W1, D1. simpl. rewrite D2. simpl.
    intro H. inversion H. reflexivity.
Qed.

Lemma start_recording_error_classes_witness :
  outcome_of (start_recording no_microphone true small_capture)
  = inl (Raise AudioDeviceError
           "Failed to initialize PyAudio: No microphone device found") /\
  _stream (state_of (start_recording no_microphone true small_capture)) = None /\
  _is_recording (state_of (start_recording no_microphone true small_capture)) = false.
Proof.
  split; [reflexivity|].
  destruct (proj1 (start_recording_error_classes no_microphone true small_capture
                     (Raise AudioDeviceError
                        "Failed to initialize PyAudio: No microphone device found")
                     eq_refl eq_refl))
    as [(R & _)|[(_ & _ & A & B)|(_ & T & _)]].
  - discriminate R.
  - split; assumption.
  - discriminate T.
Defined.

(** X10: when [start_recording] returns, no recording was in progress
    before, and now the object is recording with a stream and a PyAudio
    handle, an empty buffer of unchanged capacity, the stop event cleared,
    the given callback stored and the capture thread started. *)
Theorem start_recording_success (w : world) (cb : bool) (s : AudioCapture) :
  outcome_of (start_recording w cb s) = inr tt ->
  _is_recording s = false /\
  _is_recording (state_of (start_recording w cb s)) = true /\
  _stream (state_of (start_recording w cb s)) = Some StreamHandle /\
  _pyaudio (state_of (start_recording w cb s)) = Some PyAudioHandle /\
  _audio_buffer (state_of (start_recording w cb s))
  = mkDeque [] (maxlen (_audio_buffer s)) /\
  _stop_event (state_of (start_recording w cb s)) = false /\
  _chunk_callback (state_of (start_recording w cb s)) = cb /\
  _recording_thread (state_of (start_recording w cb s)) = Some ThreadHandle /\
  In thread_start (calls_of (start_recording w cb s)).
Proof.
  unfold start_recording, _initialize_pyaudio, _open_stream. munfold.
  destruct (_is_recording s) eqn:Rc; simpl; [discriminate|].
  destruct (_pyaudio s) as [[]|] eqn:P; destruct (_stream s) as [[]|] eqn:St; simpl.
  all: repeat (break_inner; simpl; rewrite ?St, ?P; simpl).
  all: try discriminate.
  all: intros _; repeat split; simpl; rewrite ?St, ?P; auto; try congruence;
    repeat (rewrite ?in_app_iff; simpl); tauto.
Qed.

Lemma start_recording_success_witness :
  _is_recording small_recording = true /\
  _stream small_recording = Some StreamHandle /\
  _audio_buffer small_recording = mkDeque [] (Some 3%nat).
Proof.
  pose proof (start_recording_success failing_filter true small_capture eq_refl)
    as [_ [H1 [H2 [_ [H3 _]]]]].
  repeat split; assumption.
Defined.

(** *** Capturing and stopping *)

Ltac session_side :=
  first [ exact I
        | intro; repeat split; reflexivity
        | intros ? ? ? (?&?&?&?&?&?) (?&?&?&?&?&?); repeat split; congruence ].

Lemma recording_loop_same_session (w : world) (reads : list (exn + bytes)) :
  keeps same_session (fun _ => True) (_recording_loop w reads).
Proof.
  induction reads as [|[e|b] r IH]; simpl.
  - apply keeps_ret. session_side.
  - apply keeps_emit; session_side.
  - keeps_with session_side. exact IH.
Qed.

Lemma stop_recording_outcome (w : world) (s : AudioCapture) :
  _is_recording s = true ->
  outcome_of (stop_recording w s)
  = inr (treated w s (List.concat (items (_audio_buffer s)))).
Proof.
  intro R. unfold stop_recording, treated. munfold. rewrite R. simpl.
  destruct (_recording_thread s) eqn:T; simpl.
  all: destruct (_apply_noise_reduction s); simpl.
  all: try destruct (0 <? List.length (List.concat (items (_audio_buffer s))))%nat; simpl.
  all: unfold _apply_noise_reduction_filter; munfold; simpl.
  all: try (destruct (NOISEREDUCE_AVAILABLE w); simpl).
  all: try (destruct (reduce_noise_result w _) as [e|d]; simpl).
  all: match goal with |- context [_close_stream ?v ?x] =>
         pose proof (AudioFacts.close_stream_spec v x) as CS; use_spec CS
       end.
  all: reflexivity.
Qed.

(** X11: when the capture loop has run on a recording object whose buffer
    was within its capacity, [stop_recording] returns the concatenation of
    the last [capacity] chunks (those buffered before followed by those
    read), passed through noisereduce only if noise reduction is enabled,
    the library is present, the audio is not empty and the filter succeeds;
    a failing filter gives the untreated audio.  The buffer is then empty,
    the stream closed and the object no longer recording. *)
Theorem stop_recording_returns_captured_audio
  (w1 w2 : world) (s : AudioCapture) (n : nat) (reads : list (exn + bytes)) :
  _is_recording s = true ->
  maxlen (_audio_buffer s) = Some n ->
  (List.length (items (_audio_buffer s)) <= n)%nat ->
  outcome_of (stop_recording w2 (state_of (_recording_loop w1 reads s)))
  = inr (treated w2 s
           (List.concat
              (keep_last n (items (_audio_buffer s) ++ chunks_read reads)))) /\
  _audio_buffer (state_of (stop_recording w2 (state_of (_recording_loop w1 reads s))))
  = mkDeque [] (Some n) /\
  _stream (state_of (stop_recording w2 (state_of (_recording_loop w1 reads s)))) = None /\
  _is_recording (state_of (stop_recording w2 (state_of (_recording_loop w1 reads s))))
  = false.
Proof.
  intros R M L.
  destruct (recording_loop_same_session w1 reads s) as [(K1&K2&K3&_) _].
  assert (B : _audio_buffer s
              = mkDeque (keep_last n (items (_audio_buffer s))) (Some n)).
  { rewrite (AudioFacts.keep_last_all _ _ L). destruct (_audio_buffer s); simpl in *.
    now subst. }
  pose proof (AudioFacts.recording_loop_buffer w1 n reads s _ B) as LB.
  remember (state_of (_recording_loop w1 reads s)) as s1 eqn:E. clear E.
  assert (R1 : _is_recording s1 = true) by congruence.
  destruct (AudioFacts.stop_recording_spec w2 s1 R1) as [SS _].
  rewrite (stop_recording_outcome w2 s1 R1), SS, LB. simpl.
  repeat split; [unfold treated; rewrite K3; reflexivity | rewrite LB; reflexivity].
Qed.


Lemma stop_recording_returns_captured_audio_witness :
  outcome_of
    (stop_recording failing_filter
       (state_of
          (_recording_loop failing_filter
             [inr [Byte.x01]; inr [Byte.x02]; inr [Byte.x03]; inr [Byte.x04];
              inl (Raise OSError "Input overflowed"); inr [Byte.x05]]
             small_recording)))
  = inr [Byte.x02; Byte.x03; Byte.x04].
Proof.
  refine (proj1 (stop_recording_returns_captured_audio failing_filter failing_filter
                   small_recording 3 _ _ _ _)).
  - reflexivity.
  - reflexivity.
  - simpl. lia.
Defined.

Lemma last_chunk_cons (b : bytes) (l : list bytes) :
  exists c, last_chunk (b :: l) = Some c.
Proof.
  revert b. induction l as [|x l IH]; intro b.
  - now exists b.
  - destruct (IH x) as [c H]. exists c. exact H.
Qed.

(** X12: the capture loop hands every chunk it reads to the chunk callback,
    once each and in the order read, when a callback is registered (and to
    nobody otherwise); it never raises, a failing read included, and the
    level it leaves is the level of the last chunk read. *)
Theorem chunks_delivered_in_capture_order
  (w : world) (reads : list (exn + bytes)) (s : AudioCapture) :
  delivered (calls_of (_recording_loop w reads s))
  = (if _chunk_callback s then chunks_read reads else []) /\
  outcome_of (_recording_loop w reads s) = inr tt /\
  outcome_of (get_audio_level (state_of (_recording_loop w reads s)))
  = inr (match last_chunk (chunks_read reads) with
         | Some b => calculated_level w b
         | None => _current_audio_level s
         end).
Proof.
  revert s. induction reads as [|[e|b] r IH]; intro s.
  - simpl. destruct (_chunk_callback s); repeat split.
  - simpl. destruct (_chunk_callback s); repeat split.
  - cbn [_recording_loop]. munfold. simpl.
    remember (set_audio_buffer (deque_append b (_audio_buffer s))
                (set_current_audio_level (calculated_level w b) s)) as s1 eqn:E.
    assert (C1 : _chunk_callback s1 = _chunk_callback s) by (subst s1; reflexivity).
    assert (L1 : _current_audio_level s1 = calculated_level w b)
      by (subst s1; reflexivity).
    clear E. specialize (IH s1). rewrite C1, L1 in IH.
    unfold calls_of, outcome_of, state_of, get_audio_level in *. munfold.
    destruct (_chunk_callback s) eqn:C; simpl.
    all: destruct (_recording_loop w r s1) as [[s2 t2] r2]; simpl in *.
    all: destruct IH as (D & O & L); subst r2; rewrite ?D, L.
    all: destruct (chunks_read r) as [|c l]; repeat split.
    all: destruct (last_chunk_cons c l) as [c' ->]; reflexivity.
Qed.

(** *** Stopping twice, and the life of the PyAudio handle *)



Lemma start_recording_handle (w : world) (cb : bool) (s : AudioCapture) :
  outcome_of (start_recording w cb s) = inr tt ->
  _is_recording (state_of (start_recording w cb s)) = true /\
  _pyaudio (state_of (start_recording w cb s)) = Some PyAudioHandle.
Proof.
  unfold start_recording, _initialize_pyaudio, _open_stream. munfold.
  destruct (_is_recording s) eqn:Rc; simpl; [discriminate|].
  destruct (_pyaudio s) as [[]|] eqn:P; destruct (_stream s) as [[]|] eqn:St; simpl.
  all: repeat (break_inner; simpl; rewrite ?St, ?P; simpl).
  all: try discriminate.
  all: intros _; split; simpl; rewrite ?St, ?P; auto; congruence.
Qed.

Lemma start_with_handle_calls (w : world) (cb : bool) (s : AudioCapture) :
  _pyaudio s <> None ->
  Forall not_pyaudio_lifetime (calls_of (start_recording w cb s)).
Proof.
  intro P. unfold start_recording, _initialize_pyaudio, _open_stream. munfold.
  destruct (_is_recording s) eqn:Rc; simpl; [constructor|].
  destruct (_pyaudio s) as [[]|] eqn:P1; [|congruence].
  destruct (_stream s) as [[]|] eqn:St; simpl.
  all: repeat (break_inner; simpl; rewrite ?St, ?P1; simpl).
  all: repeat constructor.
Qed.

Lemma stop_recording_keeps_handle (w : world) :
  keeps (fun s s' => _pyaudio s' = _pyaudio s) not_pyaudio_lifetime (stop_recording w).
Proof.
  unfold stop_recording, _close_stream, _apply_noise_reduction_filter.
  keeps_with ltac:(first [ exact I | reflexivity | intros; exact I
                         | intros ? ? ? ? ?; congruence ]).
Qed.

(** X14: PyAudio is initialised once.  After a successful
    [start_recording], [stop_recording] keeps the PyAudio handle and does not
    terminate PyAudio, and the next [start_recording] neither constructs
    PyAudio nor enumerates the devices again: only [release_device] gives the
    handle back. *)
Theorem pyaudio_initialised_once
  (w1 w2 w3 : world) (cb1 cb2 : bool) (s : AudioCapture) :
  outcome_of (start_recording w1 cb1 s) = inr tt ->
  _pyaudio (state_of (stop_recording w2 (state_of (start_recording w1 cb1 s))))
  = Some PyAudioHandle /\
  Forall not_pyaudio_lifetime
    (calls_of (stop_recording w2 (state_of (start_recording w1 cb1 s)))) /\
  Forall not_pyaudio_lifetime
    (calls_of (start_recording w3 cb2
                 (state_of (stop_recording w2 (state_of (start_recording w1 cb1 s)))))) /\
  _pyaudio (state_of (release_device w3
                 (state_of (stop_recording w2 (state_of (start_recording w1 cb1 s))))))
  = None.
Proof.
  intro O. destruct (start_recording_handle w1 cb1 s O) as [R P].
  destruct (stop_recording_keeps_handle w2 (state_of (start_recording w1 cb1 s)))
    as [K C].
  rewrite P in K. repeat split.
  - exact K.
  - exact C.
  - apply start_with_handle_calls. congruence.
  - destruct (AudioFacts.release_device_spec w3
                (state_of (stop_recording w2 (state_of (start_recording w1 cb1 s)))))
      as [RS _].
    rewrite RS. reflexivity.
Qed.

Lemma pyaudio_initialised_once_witness :
  _pyaudio (state_of (stop_recording failing_filter small_recording))
  = Some PyAudioHandle.
Proof.
  exact (proj1 (pyaudio_initialised_once failing_filter failing_filter failing_filter
                  true true small_capture eq_refl)).
Defined.

End AudioMore.

(** ** The recognizer while streaming *)
Module SpeechMore.
Import Speech SpeechDefs SpeechDefs2 SpeechRating.

Lemma deque_append_window {A} (x : A) (d : deque A) :
  maxlen d = Some 2%nat ->
  (List.length (items d) <= 2)%nat ->
  maxlen (deque_append x d) = Some 2%nat /\
  (List.length (items (deque_append x d)) <= 2)%nat.
Proof.
  intros M L. unfold deque_append. rewrite M. simpl. split; [reflexivity|].
  destruct (items d) as [|a [|b [|c r]]]; simpl in *; lia.
Qed.



(** One chunk: what [process_audio_chunk] does to the recognizer and which
    calls it makes. *)
Lemma process_chunk_step (w : world) (b : bytes) (s : SpeechRecognizer) :
  window_bounded s ->
  outcome_of (process_audio_chunk w b s) = inr tt /\
  window_bounded (state_of (process_audio_chunk w b s)) /\
  same_streaming s (state_of (process_audio_chunk w b s)) /\
  Forall partial_update (calls_of (process_audio_chunk w b s)) /\
  texts (calls_of (process_audio_chunk w b s))
  = (if _streaming_callback s &&
        negb (String.eqb (_current_transcription (state_of (process_audio_chunk w b s)))
                         (_current_transcription s))
     then [_current_transcription (state_of (process_audio_chunk w b s))]
     else []).
Proof.
  intros [M L].
  destruct (deque_append_window
              (match _convert_audio_to_array b with inr a => a | inl _ => [] end)
              (_context_window s) M L) as [M1 L1].
  unfold process_audio_chunk, call_model, lift_result. munfold.
  destruct (_is_streaming s) eqn:St; simpl.
  2: { rewrite String.eqb_refl, andb_false_r. repeat split; auto. }
  destruct (_convert_audio_to_array b) as [e|a] eqn:Cv; simpl.
  { rewrite String.eqb_refl, andb_false_r. repeat split; auto. }
  destruct (vad_enabled s && negb (_has_voice_activity s a)) eqn:V; simpl.
  { rewrite String.eqb_refl, andb_false_r. repeat split; auto. }
  destruct (_model s) eqn:Md; simpl.
  2: { rewrite String.eqb_refl, andb_false_r. repeat split; auto. }
  destruct (transcribe_result w _ _ _) as [e|[segs info]]; simpl.
  { rewrite String.eqb_refl, andb_false_r. repeat split; auto.
    repeat constructor. }
  destruct (String.eqb (strip (String.concat "" (map w_text segs)))
                       (_current_transcription s)) eqn:Eq; simpl.
  { rewrite String.eqb_refl, andb_false_r. repeat split; auto.
    repeat constructor. }
  destruct (_streaming_callback s) eqn:Cb; simpl; rewrite ?Eq; simpl.
  all: repeat split; auto; repeat constructor.
Qed.

(** X15: chunks handed to [process_audio_chunk], however many and whatever
    the model does with them (failing included), never make it raise; the
    context window never holds more than two arrays, the streaming flag and
    the registered callback stay as they are, and the only calls made are
    calls of the model and partial ([is_final = False]) updates. *)
Theorem streaming_chunks_never_raise
  (chunks : list (world * bytes)) (s : SpeechRecognizer) :
  window_bounded s ->
  outcome_of (feed chunks s) = inr tt /\
  window_bounded (state_of (feed chunks s)) /\
  same_streaming s (state_of (feed chunks s)) /\
  Forall partial_update (calls_of (feed chunks s)).
Proof.
  revert s. induction chunks as [|[w b] r IH]; intros s W.
  - repeat split; try apply W. constructor.
  - destruct (process_chunk_step w b s W) as (O & W1 & S1 & C1 & _).
    specialize (IH _ W1). cbn [feed]. unfold bind.
    unfold outcome_of, state_of, calls_of in *.
    destruct (process_audio_chunk w b s) as [[s1 t1] r1]. simpl in *. subst r1.
    destruct (feed r s1) as [[s2 t2] r2]. simpl in *.
    destruct IH as (O2 & W2 & S2 & C2).
    repeat split; try apply W2; auto.
    + destruct S1, S2. congruence.
    + destruct S1, S2. congruence.
    + apply Forall_app; auto.
Qed.

Lemma streaming_chunks_never_raise_witness :
  outcome_of
    (feed [(one_segment, [Init.Byte.x01; Init.Byte.x02]);
           (no_model, [Init.Byte.x01]);
           (growing, [Init.Byte.x01; Init.Byte.x02; Init.Byte.x03; Init.Byte.x04])]
          streaming_recognizer)
  = inr tt.
Proof.
  refine (proj1 (streaming_chunks_never_raise _ streaming_recognizer _)).
  split; [reflexivity | simpl; lia].
Defined.



(** *** The energy gate *)

Lemma silence_S (n : nat) :
  silence (S n) = Init.Byte.x00 :: Init.Byte.x00 :: silence n.
Proof.
  unfold silence. replace (2 * S n)%nat with (S (S (2 * n))) by lia. reflexivity.
Qed.

Lemma convert_silence (n : nat) :
  _convert_audio_to_array (silence n) = inr (repeat (inject_Z 0 / 32768)%Q n).
Proof.
  unfold _convert_audio_to_array.
  assert (F : frombuffer (silence n) = inr (repeat 0%Z n)).
  { induction n as [|n IH]; [reflexivity|].
    rewrite silence_S. cbn [frombuffer]. rewrite IH. reflexivity. }
  rewrite F, map_repeat. reflexivity.
Qed.

Lemma Qsum_squares_zero (q : Q) (n : nat) :
  (q == 0)%Q -> (Qsum (map (fun x => x * x) (repeat q n)) == 0)%Q.
Proof.
  intro Z. induction n as [|n IH]; simpl; [reflexivity|].
  rewrite IH, Z. reflexivity.
Qed.

Lemma no_voice_in_zeros (s : SpeechRecognizer) (q : Q) (n : nat) :
  (q == 0)%Q -> (0 <= vad_threshold s)%Q ->
  _has_voice_activity s (repeat q n) = false.
Proof.
  intros Z T. destruct n as [|n]; [reflexivity|].
  unfold _has_voice_activity. cbn [repeat].
  change (q :: repeat q n) with (repeat q (S n)).
  assert (L : (0 <= vad_threshold s * (1 # 100))%Q).
  { apply Qmult_le_0_compat; [exact T | discriminate]. }
  unfold Qltb. apply orb_false_iff. split; apply negb_false_iff; apply Qle_bool_iff.
  - exact L.
  - rewrite (Qsum_squares_zero q (S n) Z).
    unfold Qdiv. rewrite Qmult_0_l. apply Qmult_le_0_compat; exact L.
Qed.

(** X17: with the energy gate enabled and a threshold that is not negative,
    a chunk of digital silence, of any length, is dropped before it reaches
    the model: no call is made and the recognizer (context window and
    current transcription included) is left as it was. *)
Theorem silence_is_not_transcribed (w : world) (s : SpeechRecognizer) (n : nat) :
  _is_streaming s = true ->
  vad_enabled s = true ->
  (0 <= vad_threshold s)%Q ->
  process_audio_chunk w (silence n) s = (s, [], inr tt).
Proof.
  intros St V T. unfold process_audio_chunk, lift_result. munfold.
  rewrite St, convert_silence. simpl.
  rewrite V, (no_voice_in_zeros s _ n); [reflexivity | reflexivity | exact T].
Qed.

Lemma silence_is_not_transcribed_witness :
  process_audio_chunk one_segment (silence 160) gated_recognizer
  = (gated_recognizer, [], inr tt).
Proof.
  refine (silence_is_not_transcribed one_segment gated_recognizer 160 _ _ _).
  - reflexivity.
  - reflexivity.
  - discriminate.
Defined.

(** *** Opening and closing a streaming session *)

Lemma start_streaming_success (w : world) (cb : bool) (rate : Z) (s : SpeechRecognizer) :
  outcome_of (start_streaming_transcription w cb rate s) = inr tt ->
  _is_streaming (state_of (start_streaming_transcription w cb rate s)) = true.
Proof.
  unfold start_streaming_transcription. munfold.
  destruct (_is_streaming s); simpl; [discriminate|].
  destruct (_ensure_model_loaded w s) as [[s1 t1] [e|[]]]; simpl;
    [discriminate | reflexivity].
Qed.

(** X18: the three outcomes of [start_streaming_transcription].  While a
    session is open it raises [RuntimeError], makes no call and changes
    nothing.  Otherwise it fails only when the model cannot be loaded, with
    the [ModelLoadError] itself (not wrapped, unlike in [transcribe]), and
    the recognizer is still not streaming.  When it returns, the session is
    open with the given callback and sample rate, an empty context window,
    an empty transcription and the model loaded. *)
Theorem start_streaming_outcomes
  (w : world) (cb : bool) (rate : Z) (s : SpeechRecognizer) :
  (_is_streaming s = true ->
   start_streaming_transcription w cb rate s
   = (s, [], inl (Raise RuntimeError "Streaming transcription already in progress"))) /\
  (forall e,
     _is_streaming s = false ->
     outcome_of (start_streaming_transcription w cb rate s) = inl e ->
     cls e = ModelLoadError /\
     _model_loaded s = false /\
     (exists e0, WhisperModel_result w = inl e0) /\
     _is_streaming (state_of (start_streaming_transcription w cb rate s)) = false) /\
  (outcome_of (start_streaming_transcription w cb rate s) = inr tt ->
   _is_streaming s = false /\
   _is_streaming (state_of (start_streaming_transcription w cb rate s)) = true /\
   _streaming_callback (state_of (start_streaming_transcription w cb rate s)) = cb /\
   _sample_rate (state_of (start_streaming_transcription w cb rate s)) = Some rate /\
   items (_context_window (state_of (start_streaming_transcription w cb rate s))) = [] /\
   _current_transcription (state_of (start_streaming_transcription w cb rate s)) = "" /\
   _model_loaded (state_of (start_streaming_transcription w cb rate s)) = true).
Proof.
  unfold start_streaming_transcription, _ensure_model_loaded, _load_model. munfold.
  destruct (_is_streaming s) eqn:St; simpl.
  { repeat split; try discriminate; intros; discriminate. }
  split; [discriminate|].
  destruct (_model_loaded s) eqn:Ld; simpl.
  { rewrite ?Ld; simpl. split; [intros e _ H; discriminate|]. intros _.
    repeat split; simpl; auto. }
  rewrite ?Ld; simpl.
  destruct (_unload_timer s); simpl;
    destruct (WhisperModel_result w) as [e0|[]] eqn:W; simpl.
  all: split; [intros e _ H; try discriminate; inversion H; subst; simpl;
                 repeat split; eauto
              | intro H; try discriminate; repeat split; simpl; auto ].
Qed.

Lemma start_streaming_outcomes_witness :
  cls (Raise ModelLoadError "Failed to load model 'base': model file not found")
  = ModelLoadError /\
  _is_streaming (state_of (start_streaming_transcription no_model true 16000
                             base_recognizer)) = false.
Proof.
  pose proof (proj1 (proj2 (start_streaming_outcomes no_model true 16000 base_recognizer))
                _ eq_refl eq_refl) as (H1 & _ & _ & H2).
  split; [exact H1 | exact H2].
Defined.




(** *** Samples and confidence *)

Lemma list_pair_ind {A} (P : list A -> Prop) :
  P [] -> (forall x, P [x]) -> (forall x y l, P l -> P (x :: y :: l)) ->
  forall l, P l.
Proof.
  intros H0 H1 H2. fix IH 1. intros [|x [|y l]].
  - exact H0.
  - apply H1.
  - apply H2. apply IH.
Qed.

Lemma int16_range (lo hi : Init.Byte.byte) : (-32768 <= int16 lo hi <= 32767)%Z.
Proof.
  unfold int16.
  pose proof (Byte.to_N_bounded lo). pose proof (Byte.to_N_bounded hi).
  destruct (Z.leb_spec 32768 (Z.of_N (Byte.to_N lo) + 256 * Z.of_N (Byte.to_N hi))); lia.
Qed.

Lemma sample_range (x : Z) :
  (-32768 <= x <= 32767)%Z ->
  (-1 <= inject_Z x / 32768)%Q /\ (inject_Z x / 32768 < 1)%Q.
Proof.
  intro H. unfold Qle, Qlt, Qdiv, Qmult, Qinv, inject_Z. simpl. lia.
Qed.

(** X20: [_convert_audio_to_array] turns a byte string of even length into
    one sample per two bytes, each in the interval [-1, 1) (the value 1 is
    never reached); a byte string of odd length is rejected with
    [ValueError]. *)
Theorem convert_audio_normalised (b : bytes) :
  (Nat.even (List.length b) = true ->
   exists a, _convert_audio_to_array b = inr a /\
             (2 * List.length a = List.length b)%nat /\
             Forall (fun x => -1 <= x /\ x < 1)%Q a) /\
  (Nat.even (List.length b) = false ->
   exists e, _convert_audio_to_array b = inl e /\ cls e = ValueError).
Proof.
  unfold _convert_audio_to_array.
  induction b as [|x|lo hi l IH] using list_pair_ind.
  - split; [|discriminate]. intros _. exists []. repeat split. constructor.
  - split; [discriminate|]. intros _. eexists. split; reflexivity.
  - change (Nat.even (List.length (lo :: hi :: l))) with (Nat.even (List.length l)).
    cbn [frombuffer]. destruct IH as [Ev Od]. split.
    + intro E. destruct (Ev E) as (a & C & L & R).
      destruct (frombuffer l) as [e|zs]; [discriminate|].
      injection C as <-. eexists. split; [reflexivity|]. split.
      * simpl in *. lia.
      * constructor; [apply sample_range, int16_range | exact R].
    + intro E. destruct (Od E) as (e & C & K).
      destruct (frombuffer l) as [e'|zs]; [|discriminate].
      injection C as <-. exists e'. split; [reflexivity | exact K].
Qed.

Lemma convert_audio_normalised_witness :
  _convert_audio_to_array [Init.Byte.x00; Init.Byte.x80; Init.Byte.xff; Init.Byte.x7f]
  = inr [(-32768 # 1) / 32768; (32767 # 1) / 32768]%Q /\
  (exists e, _convert_audio_to_array [Init.Byte.x00; Init.Byte.x80; Init.Byte.xff]
             = inl e /\ cls e = ValueError).
Proof.
  split; [reflexivity|].
  exact (proj2 (convert_audio_normalised [Init.Byte.x00; Init.Byte.x80; Init.Byte.xff])
           eq_refl).
Defined.

Lemma returns_bind_with {S A B} (Pa : A -> Prop) (P : B -> Prop)
  (m : M S A) (k : A -> M S B) :
  returns Pa m -> (forall a, Pa a -> returns P (k a)) -> returns P (bind m k).
Proof.
  intros Hm Hk s b. specialize (Hm s). unfold bind, outcome_of in *.
  destruct (m s) as [[s1 t1] [e|a]]; simpl in *; [discriminate|].
  specialize (Hk a (Hm a eq_refl) s1 b). unfold outcome_of in Hk.
  destruct (k a s1) as [[s2 t2] r2]. exact Hk.
Qed.

Lemma call_model_returns (w : world) (a : list Q) (l : option string) (v : bool) :
  reports_log_probabilities w ->
  returns (fun r => Forall (fun g => avg_logprob g <= 0)%Q (fst r)) (call_model w a l v).
Proof.
  intros H s [segs info]. unfold call_model. munfold.
  destruct (_model s); simpl; [|discriminate].
  destruct (transcribe_result w a l v) as [e|[segs' info']] eqn:T; simpl;
    [discriminate|].
  intro E. injection E as -> ->. exact (H _ _ _ _ _ T).
Qed.

Lemma sum_nonpositive (segs : list Segment) :
  Forall (fun g => avg_logprob g <= 0)%Q segs ->
  forall acc : Q, (fold_left (fun a g => a + avg_logprob g) segs acc <= acc)%Q.
Proof.
  induction 1 as [|g r G _ IH]; intro acc; simpl; [apply Qle_refl|].
  eapply Qle_trans; [apply IH|].
  rewrite <- (Qplus_0_r acc) at 2. apply Qplus_le_r. exact G.
Qed.

Lemma mean_nonpositive (segs : list Segment) :
  Forall (fun g => avg_logprob g <= 0)%Q segs ->
  ((if (0 <? List.length segs)%nat
    then fold_left (fun a g => a + avg_logprob g) segs 0
         / inject_Z (Z.of_nat (List.length segs))
    else 0) <= 0)%Q.
Proof.
  intro H. destruct (Nat.ltb_spec 0 (List.length segs)) as [L|L]; [|apply Qle_refl].
  apply Qle_shift_div_r.
  - unfold Qlt, inject_Z. simpl. lia.
  - rewrite Qmult_0_l. apply sum_nonpositive. exact H.
Qed.

Lemma transcribe_confidence_nonpositive (w : world) (audio_data : bytes) :
  reports_log_probabilities w ->
  returns (fun r => confidence r <= 0)%Q (transcribe w audio_data).
Proof.
  intro H. unfold transcribe.
  apply returns_try_except; [|intro; apply returns_raise].
  do 5 (apply returns_bind; intro).
  eapply returns_bind_with; [apply call_model_returns; exact H|].
  intros r Hr. apply returns_bind; intro. apply returns_ret. simpl.
  apply mean_nonpositive. exact Hr.
Qed.

(** X21: since the confidence [transcribe] reports is a mean of
    log-probabilities, which faster-whisper never reports positive, every
    result of [transcribe] has a confidence of at most 0: whatever was said,
    [get_confidence_indicator] answers ["?"] and [is_low_confidence] holds
    for every positive threshold, the default 0.7 included. *)
Theorem transcribe_results_rated_low
  (w : world) (s : SpeechRecognizer) (audio_data : bytes) (r : TranscriptionResult) :
  reports_log_probabilities w ->
  outcome_of (transcribe w audio_data s) = inr r ->
  (confidence r <= 0)%Q /\
  get_confidence_indicator r = "?" /\
  (forall threshold : Q, (0 < threshold)%Q -> is_low_confidence r threshold = true).
Proof.
  intros H O.
  pose proof (transcribe_confidence_nonpositive w audio_data H s r O) as C.
  simpl in C. split; [exact C|].
  assert (Low : forall t : Q, (0 < t)%Q -> Qle_bool t (confidence r) = false).
  { intros t T. destruct (Qle_bool t (confidence r)) eqn:E; [|reflexivity].
    apply Qle_bool_iff in E. exfalso.
    apply (Qlt_irrefl 0). eapply Qlt_le_trans; [exact T|].
    eapply Qle_trans; eassumption. }
  split.
  - unfold get_confidence_indicator.
    rewrite (Low (9 # 10)%Q), (Low (7 # 10)%Q); reflexivity.
  - intros t T. unfold is_low_confidence, Qltb. rewrite (Low t T). reflexivity.
Qed.

Lemma transcribe_results_rated_low_witness :
  exists r, outcome_of (transcribe one_segment [Init.Byte.x01; Init.Byte.x02]
                          streaming_recognizer) = inr r /\
            text r = "hello" /\
            get_confidence_indicator r = "?" /\
            is_low_confidence r (7 # 10) = true.
Proof.
  eexists. split; [reflexivity|]. split; [reflexivity|].
  assert (W : reports_log_probabilities one_segment).
  { intros a l v segs info E. injection E as <- _.
    constructor; [discriminate | constructor]. }
  pose proof (transcribe_results_rated_low one_segment streaming_recognizer
                [Init.Byte.x01; Init.Byte.x02] _ W eq_refl) as (_ & I & L).
  split; [exact I | apply L; reflexivity].
Defined.

(** *** Language detection and the life of the model *)

(** X22: [_detect_language] never raises: when the model cannot be loaded
    or the detection call fails, it answers English with probability 0;
    otherwise it answers what faster-whisper reports. *)
Theorem detect_language_never_raises
  (w : world) (audio_array : list Q) (s : SpeechRecognizer) :
  exists r, outcome_of (_detect_language w audio_array s) = inr r /\
    ((exists e, transcribe_result w audio_array None (vad_enabled s) = inl e) ->
     r = ("en", 0%Q)) /\
    (_model_loaded s = false -> (exists e, WhisperModel_result w = inl e) ->
     r = ("en", 0%Q)) /\
    (forall segs info,
       _model_loaded s = true -> _model s <> None ->
       transcribe_result w audio_array None (vad_enabled s) = inr (segs, info) ->
       r = (info_language info, language_probability info)).
Proof.
  unfold _detect_language, _ensure_model_loaded, _load_model, call_model. munfold.
  destruct (_model_loaded s) eqn:Ld; simpl; rewrite ?Ld; simpl.
  - destruct (_model s) eqn:Md; simpl.
    + destruct (transcribe_result w audio_array None (vad_enabled s))
        as [e|[segs info]] eqn:T; simpl; eexists; (split; [reflexivity|]).
      * repeat split; auto; intros; congruence.
      * repeat split.
        -- intros [e E]. discriminate.
        -- discriminate.
        -- intros segs' info' _ _ E. injection E as <- <-. reflexivity.
    + eexists. split; [reflexivity|]. repeat split; auto; intros; congruence.
  - destruct (_unload_timer s); simpl;
      destruct (WhisperModel_result w) as [e|[]] eqn:W; simpl;
      try (destruct (transcribe_result w audio_array None (vad_enabled s))
             as [e1|[segs info]] eqn:T; simpl);
      eexists; (split; [reflexivity|]); repeat split; auto;
      try (intros [e' E']; discriminate); try discriminate;
      intros; try congruence;
      match goal with H : exists _, _ |- _ => destruct H; discriminate end.
Qed.

(** X23: [unload_model] never raises and leaves the model unloaded; a
    second call makes no call and changes nothing; when a model was loaded,
    the model object and the pending timer are dropped.  The model is loaded
    again on the next use: [_ensure_model_loaded] then constructs it, and it
    is loaded exactly when the construction succeeds. *)
Theorem unload_then_reload (w : world) (s : SpeechRecognizer) :
  outcome_of (unload_model s) = inr tt /\
  _model_loaded (state_of (unload_model s)) = false /\
  unload_model (state_of (unload_model s)) = (state_of (unload_model s), [], inr tt) /\
  (_model_loaded s = true ->
   _model (state_of (unload_model s)) = None /\
   _unload_timer (state_of (unload_model s)) = None) /\
  In WhisperModel_new (calls_of (_ensure_model_loaded w (state_of (unload_model s)))) /\
  _model_loaded (state_of (_ensure_model_loaded w (state_of (unload_model s))))
  = match WhisperModel_result w with inl _ => false | inr _ => true end.
Proof.
  unfold unload_model, _ensure_model_loaded, _load_model. munfold.
  destruct (_model_loaded s) eqn:Ld; simpl; rewrite ?Ld; simpl.
  - destruct (_unload_timer s) eqn:T; simpl;
      destruct (WhisperModel_result w) as [e|[]]; simpl; rewrite ?T; simpl;
      repeat split; auto; try (repeat (rewrite ?in_app_iff; simpl); tauto).
  - rewrite ?Ld. simpl.
    destruct (_unload_timer s) eqn:T; simpl;
      destruct (WhisperModel_result w) as [e|[]]; simpl; rewrite ?Ld; simpl;
      rewrite ?T; simpl;
      repeat split; auto; try discriminate;
      try (repeat (rewrite ?in_app_iff; simpl); tauto).
Qed.

End SpeechMore.

(** ** The orchestrator across sessions *)
Module DaemonMore.
Import Daemon DaemonDefs DaemonDefs2.

(** *** A streaming session that is never closed *)

(** X24: when the press handler fails after the recognizer has opened its
    streaming session (the input simulator or [start_recording] raises, a
    busy device for instance), the handler reverts [_is_recording] but does
    not close the session: the daemon is left not recording with a
    recognizer that is still streaming. *)
Theorem failed_start_leaves_session_open
  (w : world) (d : ZephyrDaemon) (sr : Speech.SpeechRecognizer) (e : exn) :
  _is_recording d = false ->
  ui_overlay d && is_visible w = false ->
  speech_recognizer d = Some sr ->
  (ui_overlay d = true -> show_recording_result w = inr tt) ->
  outcome_of (Speech.start_streaming_transcription (speech w) true (configured_rate d) sr)
  = inr tt ->
  outcome_of (press_body w d) = inl e ->
  session_left_open (state_of (_on_hotkey_press w d)).
Proof.
  intros Rc Vis Sr Show Start.
  pose proof (SpeechMore.start_streaming_success _ _ _ _ Start) as Open.
  unfold _on_hotkey_press, press_body, _handle_error, on_speech, on_audio,
    configured_rate, session_left_open in *.
  munfold. rewrite Rc, Vis. simpl. rewrite Sr. simpl.
  destruct (Speech.start_streaming_transcription (speech w) true
              match config d with Some r => r | None => 16000%Z end sr)
    as [[sr1 ts] rs].
  simpl in Start, Open. subst rs.
  destruct (ui_overlay d) eqn:Ui; simpl;
    try (rewrite (Show eq_refl); simpl).
  all: destruct (input_simulator d) eqn:In; simpl;
    try (destruct (start_streaming_input_result w) as [ei|[]]; simpl).
  all: destruct (audio_capture d) as [ac|] eqn:Ac; simpl;
    try (destruct (Audio.start_recording (audio w) true ac) as [[ac1 ta] [ea|[]]]; simpl).
  all: try discriminate.
  all: rewrite ?Ui; simpl; try (destruct (show_error_result w) as [es|[]]; simpl).
  all: intros _; split; [reflexivity | exists sr1; split; [reflexivity | exact Open]].
Qed.

Lemma failed_start_leaves_session_open_witness :
  session_left_open
    (state_of (_on_hotkey_press (all_well AudioDefs.device_busy) idle_daemon)).
Proof.
  refine (failed_start_leaves_session_open (all_well AudioDefs.device_busy) idle_daemon
            SpeechDefs.base_recognizer
            (Raise DeviceBusyError "Audio device is busy: [Errno -9985] Device busy")
            _ _ _ _ _ _); reflexivity.
Defined.

Lemma press_with_open_session (w : world) (d : ZephyrDaemon) :
  session_left_open d ->
  session_left_open (state_of (_on_hotkey_press w d)) /\
  ~ In ac_start_recording (calls_of (_on_hotkey_press w d)).
Proof.
  intros [Rc [sr [Sr St]]].
  unfold _on_hotkey_press, press_body, _handle_error, on_speech, session_left_open.
  unfold Speech.start_streaming_transcription.
  munfold. rewrite Rc. simpl.
  destruct (ui_overlay d) eqn:Ui; simpl.
  - destruct (is_visible w); simpl.
    + destruct (hide_result w) as [e|[]]; simpl;
        (split; [split; [exact Rc | exists sr; split; first [assumption | reflexivity]]
                | simpl; intuition discriminate]).
    + rewrite Sr. simpl. rewrite St. simpl.
      destruct (show_recording_result w) as [e|[]]; simpl; rewrite ?Ui; simpl;
        destruct (show_error_result w) as [e1|[]]; simpl; rewrite ?Ui; simpl;
        (split; [split; [reflexivity | exists sr; split; first [assumption | reflexivity]]
                | intuition discriminate]).
  - rewrite Sr. simpl. rewrite St. simpl. rewrite ?Ui. simpl. rewrite ?Ui. simpl.
    split; [split; [reflexivity | exists sr; split; first [assumption | reflexivity]]
           | intuition discriminate].
Qed.

Lemma release_when_not_recording (w : world) (d : ZephyrDaemon) :
  _is_recording d = false -> _on_hotkey_release w d = (d, [], inr tt).
Proof.
  intro Rc. unfold _on_hotkey_release. munfold. rewrite Rc. reflexivity.
Qed.

Lemma handle_with_open_session (d : ZephyrDaemon) (ev : event) :
  session_left_open d -> session_left_open (handle d ev).
Proof.
  intro H. destruct ev as [w|w]; simpl.
  - apply press_with_open_session. exact H.
  - rewrite (release_when_not_recording w d (proj1 H)). exact H.
Qed.

(** X25: once the recognizer has been left streaming while the daemon is
    not recording, no sequence of hot-key presses and releases, whatever
    the devices and the model do, starts a recording again: no press gets
    as far as starting the capture (it fails, at the latest, in
    [start_streaming_transcription]), every release is ignored, and the
    session stays open. *)
Theorem open_session_blocks_recording (evs : list event) (d : ZephyrDaemon) (w : world) :
  session_left_open d ->
  session_left_open (fold_left handle evs d) /\
  ~ In ac_start_recording (calls_of (_on_hotkey_press w (fold_left handle evs d))) /\
  calls_of (_on_hotkey_release w (fold_left handle evs d)) = [].
Proof.
  intro H.
  assert (K : session_left_open (fold_left handle evs d)).
  { revert d H. induction evs as [|ev r IH]; intros d H; simpl; [exact H|].
    apply IH, handle_with_open_session, H. }
  split; [exact K|]. split.
  - apply press_with_open_session. exact K.
  - rewrite (release_when_not_recording w _ (proj1 K)). reflexivity.
Qed.

Lemma open_session_blocks_recording_witness :
  _is_recording
    (fold_left handle
       [HotkeyPress (all_well working_microphone);
        HotkeyRelease (all_well working_microphone);
        HotkeyPress (all_well working_microphone)]
       (state_of (_on_hotkey_press (all_well AudioDefs.device_busy) idle_daemon)))
  = false.
Proof.
  refine (proj1 (proj1 (open_session_blocks_recording _ _ (all_well working_microphone) _))).
  split; [reflexivity|]. eexists. split; reflexivity.
Defined.

(** *** A release that succeeds *)

(** X26: the calls of a release that goes well, in their order.  When the
    capture returns audio that is not empty and [finalize_transcription]
    returns a result, the handler stops the capture, finalizes with exactly
    the bytes the capture returned, shows the text of that result as final,
    shows the completion, finalizes the input when there is an input
    simulator, and releases the device last; the recognizer is left as
    [finalize_transcription] left it. *)
Theorem release_pipeline_order
  (w : world) (d : ZephyrDaemon) (ac : Audio.AudioCapture)
  (sr : Speech.SpeechRecognizer) (recorded : bytes)
  (result : Speech.TranscriptionResult) :
  _is_recording d = true ->
  audio_capture d = Some ac ->
  speech_recognizer d = Some sr ->
  ui_overlay d = true ->
  recorded <> [] ->
  outcome_of (Audio.stop_recording (audio w) ac) = inr recorded ->
  outcome_of (Speech.finalize_transcription (speech w) (Some recorded) sr) = inr result ->
  update_transcription_result w = inr tt ->
  show_completion_result w = inr tt ->
  finalize_input_result w = inr tt ->
  calls_of (_on_hotkey_release w d)
  = [ac_stop_recording] ++ calls_of (Audio.stop_recording (audio w) ac)
    ++ [sr_finalize_transcription]
    ++ calls_of (Speech.finalize_transcription (speech w) (Some recorded) sr)
    ++ [ui_update_transcription (Speech.text result) true; ui_show_completion]
    ++ (if input_simulator d then [in_finalize_input] else [])
    ++ [ac_release_device]
    ++ calls_of (Audio.release_device (audio w)
                   (state_of (Audio.stop_recording (audio w) ac))) /\
  speech_recognizer (state_of (_on_hotkey_release w d))
  = Some (state_of (Speech.finalize_transcription (speech w) (Some recorded) sr)) /\
  _is_recording (state_of (_on_hotkey_release w d)) = false.
Proof.
  intros Rc Ac Sr Ui Ne Stop Fin Up Done Inp.
  destruct recorded as [|b rest]; [congruence|]. clear Ne.
  unfold _on_hotkey_release, release_body, _handle_error, on_audio, on_speech.
  munfold. rewrite Rc. simpl. rewrite Ac. simpl.
  unfold outcome_of, calls_of, state_of in *.
  destruct (Audio.stop_recording (audio w) ac) as [[ac1 t1] r1].
  simpl in Stop. subst r1. simpl. rewrite Sr. simpl.
  match type of Fin with
  | snd ?m = _ => destruct m as [[sr1 t2] r2]
  end.
  simpl in Fin. subst r2. simpl. rewrite Ui. simpl. rewrite Up. simpl.
  rewrite Done. simpl.
  destruct (input_simulator d) eqn:In; simpl; rewrite ?Inp; simpl.
  all: pose proof (AudioFacts.release_device_spec (audio w) ac1) as RS; use_spec RS.
  all: repeat split; rewrite <- ?app_assoc; simpl; rewrite <- ?app_assoc; simpl;
    rewrite ?app_nil_r; try reflexivity.
Qed.

Lemma release_pipeline_order_witness :
  calls_of (_on_hotkey_release (all_well working_microphone) captured_daemon)
  = [ac_stop_recording; thread_join; stream_is_active; stream_stop_stream; stream_close;
     sr_finalize_transcription; model_transcribe;
     ui_update_transcription "hello" true; ui_show_completion;
     in_finalize_input; ac_release_device; pa_terminate].
Proof.
  refine (eq_trans
            (proj1 (release_pipeline_order (all_well working_microphone) captured_daemon
                      _ _
                      [Init.Byte.x01; Init.Byte.x02; Init.Byte.x03; Init.Byte.x04;
                       Init.Byte.x05; Init.Byte.x06; Init.Byte.x07; Init.Byte.x08]
                      _ _ _ _ _ _ _ _ _ _ _)) _).
  all: try (vm_compute; reflexivity).
  discriminate.
Defined.

(** *** The two recording flags *)

Lemma start_recording_opens (w : Audio.world) (cb : bool) (s : Audio.AudioCapture) :
  outcome_of (Audio.start_recording w cb s) = inr tt ->
  Audio._is_recording (state_of (Audio.start_recording w cb s)) = true /\
  Audio._stream (state_of (Audio.start_recording w cb s)) <> None.
Proof.
  unfold Audio.start_recording, Audio._initialize_pyaudio, Audio._open_stream. munfold.
  destruct (Audio._is_recording s) eqn:Rc; simpl; [discriminate|].
  destruct (Audio._pyaudio s) as [[]|] eqn:P;
    destruct (Audio._stream s) as [[]|] eqn:St; simpl.
  all: repeat (break_inner; simpl; rewrite ?St, ?P; simpl).
  all: try discriminate.
  all: intros _; split; simpl; rewrite ?St, ?P; auto; congruence.
Qed.

Lemma press_body_starts_capture (w : world) (d : ZephyrDaemon) :
  outcome_of (press_body w d) = inr tt ->
  match audio_capture (state_of (press_body w d)) with
  | Some ac => Audio._is_recording ac = true /\ Audio._stream ac <> None
  | None => True
  end.
Proof.
  unfold press_body, on_audio, on_speech. munfold. simpl.
  destruct (audio_capture d) as [ac|] eqn:Ac.
  - pose proof (start_recording_opens (audio w) true ac) as SO.
    unfold state_of, outcome_of in SO.
    destruct (Audio.start_recording (audio w) true ac) as [[ac1 t1] r1].
    simpl in SO.
    repeat (break_inner; simpl).
    all: try discriminate.
    all: intros _;
      repeat match goal with
             | H : Some _ = Some _ |- _ => injection H as H; subst
             end;
      apply SO;
      repeat match goal with u : unit |- _ => destruct u end; reflexivity.
  - repeat (break_inner; simpl).
    all: first [ discriminate | intros _; exact I | congruence ].
Qed.

Lemma failed_press_clears_flag (w : world) (d : ZephyrDaemon) (e : exn) :
  _is_recording d = false ->
  ui_overlay d && is_visible w = false ->
  outcome_of (press_body w d) = inl e ->
  _is_recording (state_of (_on_hotkey_press w d)) = false.
Proof.
  intros Rc Vis Fail.
  unfold _on_hotkey_press, _handle_error. munfold. simpl.
  rewrite Rc, Vis. simpl.
  unfold state_of, outcome_of in *.
  destruct (press_body w d) as [[d1 t1] r1]. simpl in *. subst r1. simpl.
  destruct (ui_overlay d1); simpl; [destruct (show_error_result w) as [e1|[]]|];
    reflexivity.
Qed.

Lemma release_clears_flag (w : world) (d : ZephyrDaemon) :
  _is_recording d = true ->
  _is_recording (state_of (_on_hotkey_release w d)) = false.
Proof.
  intros Rc.
  unfold _on_hotkey_release, release_body, _handle_error, on_audio, on_speech.
  munfold. simpl. rewrite Rc. simpl.
  destruct (audio_capture d) as [ac|] eqn:Ac; simpl; rewrite ?Ac; simpl.
  - repeat first [DaemonFacts.abstract_release | break_inner; simpl].
    all: reflexivity.
  - repeat (break_inner; simpl; rewrite ?Ac; simpl).
    all: reflexivity.
Qed.

Lemma handle_flags_agree (d : ZephyrDaemon) (ev : event) :
  thread_starts ev -> flags_agree d -> flags_agree (handle d ev).
Proof.
  intros Th Inv. destruct ev as [w|w]; simpl in *.
  - destruct (_is_recording d) eqn:Rc.
    + unfold _on_hotkey_press. munfold. simpl. rewrite Rc. exact Inv.
    + destruct (ui_overlay d && is_visible w) eqn:Vis.
      * unfold _on_hotkey_press. munfold. simpl. rewrite Rc, Vis. exact Inv.
      * assert (Idle : audio_idle d).
        { unfold audio_idle, flags_agree in *.
          destruct (audio_capture d); [|exact I].
          destruct Inv as [A B]. split; [apply B; exact Rc | congruence]. }
        destruct (outcome_of (press_body w d)) as [e|[]] eqn:O.
        -- pose proof (DaemonFacts.press_failure_keeps_idle w d e Th Rc Vis Idle O)
             as K.
           pose proof (failed_press_clears_flag w d e Rc Vis O) as F.
           unfold flags_agree, audio_idle in *.
           destruct (audio_capture (state_of (_on_hotkey_press w d))); [|exact I].
           destruct K as [K1 K2]. rewrite F. tauto.
        -- pose proof (DaemonFacts.press_body_success w d O) as T.
           pose proof (press_body_starts_capture w d O) as C.
           unfold flags_agree, _on_hotkey_press. munfold. simpl.
           rewrite Rc, Vis. simpl.
           unfold state_of, outcome_of in *.
           destruct (press_body w d) as [[d1 t1] r1]. simpl in *. subst r1. simpl.
           destruct (audio_capture d1); [|exact I].
           destruct C as [C1 C2]. rewrite T. split; [exact C1|].
           split; intro H; [contradiction | discriminate].
  - destruct (_is_recording d) eqn:Rc.
    + pose proof (release_clears_flag w d Rc) as F.
      destruct (audio_capture d) as [ac|] eqn:Ac.
      * pose proof (DaemonFacts.release_leaves_device_released w d ac Rc Ac) as Rel.
        unfold flags_agree, device_released in *.
        destruct (audio_capture (state_of (_on_hotkey_release w d))); [|exact I].
        destruct Rel as (R1 & _ & R3). rewrite F. tauto.
      * unfold flags_agree.
        rewrite (DaemonFacts.release_without_capture w d Ac). exact I.
    + rewrite (release_when_not_recording w d Rc). exact Inv.
Qed.

(** X27: as long as the capture thread can be started, the recording flag
    of the daemon and the capture object never disagree.  From a state in
    which the capture records and has its stream open exactly when the
    daemon is recording (the freshly initialised daemon, for one), every
    sequence of hot-key presses and releases during which [Thread.start()]
    does not raise, whatever else the devices, the model and the overlay
    do, leads to such a state again.  (When [Thread.start()] raises, the
    two disagree: see [DaemonFacts.failed_thread_start_leaves_stream_open].) *)
Theorem recording_flags_agree (evs : list event) (d : ZephyrDaemon) :
  Forall thread_starts evs ->
  flags_agree d -> flags_agree (fold_left handle evs d).
Proof.
  intro Th. revert d.
  induction Th as [|ev r T _ IH]; intros d Inv; simpl; [exact Inv|].
  apply IH, handle_flags_agree; assumption.
Qed.

Lemma recording_flags_agree_witness :
  flags_agree
    (fold_left handle
       [HotkeyPress (all_well working_microphone);
        HotkeyPress (all_well AudioDefs.device_busy);
        HotkeyRelease (all_well working_microphone);
        HotkeyPress (all_well AudioDefs.device_busy)]
       idle_daemon).
Proof.
  refine (recording_flags_agree _ idle_daemon _ _).
  - repeat constructor.
  - split; [reflexivity | split; reflexivity].
Defined.

End DaemonMore.
